(** * clawdbot: the Claude CLI runner and the OAuth sync script

    A shallow embedding of [src/agents/claude-cli-runner.ts] and of
    [scripts/sync-claude-oauth.ts], with the properties of their
    specification stated and proved over it.

    Conventions of the embedding.
    - A JavaScript string is modelled by the bytes of its UTF-8 encoding
      ([string]); an optional field of a TypeScript type is an [option].
    - Values read from JSON are modelled at the TypeScript type the source
      casts them to ([as Record<string, string>], [as ClaudeJsonResult], ...);
      documents outside that type are outside the model.
    - Token counts and millisecond time stamps are integers ([Z]); they are
      exact in a JavaScript number below 2^53.
    - An object used as a map is modelled by its own properties, without
      those it inherits from [Object.prototype].
    - A handler runs to its end before the next event is delivered; this
      includes the ["close"] handler of the runner, which awaits its write.
    - Platform functions that are not code of the repository ([JSON.parse],
      [JSON.stringify], [path.join], [resolveUserPath], ...) are parameters
      of the development; a concrete codec is given in [Module Codec] and is
      used to run the model on sample inputs. *)

From Stdlib Require Import ZArith Ascii String List Lia Bool.
From stdpp Require Import base option list strings gmap pretty.

Local Open Scope Z_scope.

(** ** Strings: [trim] and [split] *)

Module JsString.

Definition chars (s : string) : list ascii := list_ascii_of_string s.
Definition of_chars (l : list ascii) : string := string_of_list_ascii l.

Definition byte (n : nat) : ascii := ascii_of_nat n.

(** The code points ECMAScript counts as WhiteSpace or LineTerminator,
    each as its UTF-8 byte sequence. *)
Definition white_space : list (list ascii) :=
  [ [byte 9]; [byte 10]; [byte 11]; [byte 12]; [byte 13]; [byte 32];
    [byte 194; byte 160];
    [byte 225; byte 154; byte 128];
    [byte 226; byte 128; byte 128]; [byte 226; byte 128; byte 129];
    [byte 226; byte 128; byte 130]; [byte 226; byte 128; byte 131];
    [byte 226; byte 128; byte 132]; [byte 226; byte 128; byte 133];
    [byte 226; byte 128; byte 134]; [byte 226; byte 128; byte 135];
    [byte 226; byte 128; byte 136]; [byte 226; byte 128; byte 137];
    [byte 226; byte 128; byte 138];
    [byte 226; byte 128; byte 168]; [byte 226; byte 128; byte 169];
    [byte 226; byte 128; byte 175];
    [byte 226; byte 129; byte 159];
    [byte 227; byte 128; byte 128];
    [byte 239; byte 187; byte 191] ]%list.

Fixpoint drop_prefix (p l : list ascii) : option (list ascii) :=
  match p, l with
  | [], _ => Some l
  | a :: p', b :: l' => if Ascii.eqb a b then drop_prefix p' l' else None
  | _ :: _, [] => None
  end.

Fixpoint drop_any (ps : list (list ascii)) (l : list ascii)
  : option (list ascii) :=
  match ps with
  | [] => None
  | p :: ps' =>
      match drop_prefix p l with
      | Some r => Some r
      | None => drop_any ps' l
      end
  end.

Fixpoint drop_all (fuel : nat) (ps : list (list ascii)) (l : list ascii)
  : list ascii :=
  match fuel with
  | O => l
  | S fuel' =>
      match drop_any ps l with
      | Some r => drop_all fuel' ps r
      | None => l
      end
  end.

Definition trimStart (l : list ascii) : list ascii :=
  drop_all (length l) white_space l.

Definition trimEnd (l : list ascii) : list ascii :=
  rev (drop_all (length l) (map (@rev ascii) white_space) (rev l)).

(** [s.trim()] *)
Definition trim (s : string) : string :=
  of_chars (trimEnd (trimStart (chars s))).

Definition newline : ascii := byte 10.

(** [s.split("\n")]: never empty, [""] splits into [[""]]. *)
Fixpoint split_newline (s : string) : list string :=
  match s with
  | EmptyString => [EmptyString]
  | String c s' =>
      if Ascii.eqb c newline then EmptyString :: split_newline s'
      else match split_newline s' with
           | h :: t => String c h :: t
           | [] => [String c EmptyString]
           end
  end.

(** [s ? ... : ...] on an optional string: [undefined] and [""] are falsy. *)
Definition truthy (o : option string) : option string :=
  match o with
  | Some EmptyString => None
  | Some s => Some s
  | None => None
  end.

(** [a || b] on optional strings. *)
Definition or_else (a b : option string) : option string :=
  match truthy a with
  | Some s => Some s
  | None => b
  end.

End JsString.

(** ** JSON documents *)

Module Json.
Import JsString.

(** A JSON document. A number is kept as the decimal [mantissa * 10^exponent]
    it was written as; the members of an object are listed in the order
    [Object.keys] enumerates them. *)
#[warnings="-register-all"] Inductive json : Type :=
| JNull
| JBool (b : bool)
| JNum (mantissa exponent : Z)
| JStr (s : string)
| JArr (items : list json)
| JObj (members : list (string * json)).

Definition code (c : ascii) : Z := Z.of_N (N_of_ascii c).
Definition at_code (n : Z) (c : ascii) : bool := code c =? n.
Definition is_digit (c : ascii) : bool := (48 <=? code c) && (code c <=? 57).
Definition digit (c : ascii) : Z := code c - 48.

Definition digits_value (ds : list ascii) : Z :=
  fold_left (fun acc d => 10 * acc + digit d) ds 0.

Fixpoint span_digits (l : list ascii) : list ascii * list ascii :=
  match l with
  | c :: r =>
      if is_digit c then let '(ds, rest) := span_digits r in (c :: ds, rest)
      else ([], l)
  | [] => ([], [])
  end.

(** *** Object properties *)

Fixpoint get (k : string) (ms : list (string * json)) : option json :=
  match ms with
  | [] => None
  | (k', v) :: r => if String.eqb k k' then Some v else get k r
  end.

Fixpoint replace (k : string) (v : json) (ms : list (string * json))
  : list (string * json) :=
  match ms with
  | [] => []
  | (k', v') :: r =>
      if String.eqb k k' then (k, v) :: r else (k', v') :: replace k v r
  end.

(** An array index: the canonical decimal form of an integer below
    2^32 - 1. Such keys are enumerated first, in ascending order. *)
Definition array_index (k : string) : option Z :=
  match chars k with
  | [] => None
  | d :: ds =>
      if forallb is_digit (d :: ds)
         && (negb (at_code 48 d) || match ds with [] => true | _ => false end)
         && (Nat.leb (length (d :: ds)) 10)
         && (digits_value (d :: ds) <? 4294967295)
      then Some (digits_value (d :: ds))
      else None
  end.

Fixpoint insert_index (n : Z) (k : string) (v : json)
    (ms : list (string * json)) : list (string * json) :=
  match ms with
  | [] => [(k, v)]
  | (k', v') :: r =>
      match array_index k' with
      | Some n' =>
          if n <? n' then (k, v) :: ms else (k', v') :: insert_index n k v r
      | None => (k, v) :: ms
      end
  end.

(** [obj[k] = v] on an ordinary object. *)
Definition set (k : string) (v : json) (ms : list (string * json))
  : list (string * json) :=
  match get k ms with
  | Some _ => replace k v ms
  | None =>
      match array_index k with
      | Some n => insert_index n k v ms
      | None => ms ++ [(k, v)]
      end
  end.

(** *** Reading *)

Definition json_space (c : ascii) : bool :=
  at_code 32 c || at_code 9 c || at_code 10 c || at_code 13 c.

Fixpoint skip_space (l : list ascii) : list ascii :=
  match l with
  | c :: r => if json_space c then skip_space r else l
  | [] => []
  end.

Definition hex_digit (c : ascii) : option Z :=
  let n := code c in
  if (48 <=? n) && (n <=? 57) then Some (n - 48)
  else if (65 <=? n) && (n <=? 70) then Some (n - 55)
  else if (97 <=? n) && (n <=? 102) then Some (n - 87)
  else None.

Definition hex4 (l : list ascii) : option (Z * list ascii) :=
  match l with
  | a :: b :: c :: d :: r =>
      match hex_digit a, hex_digit b, hex_digit c, hex_digit d with
      | Some x, Some y, Some z, Some w =>
          Some (((x * 16 + y) * 16 + z) * 16 + w, r)
      | _, _, _, _ => None
      end
  | _ => None
  end.

Definition of_code (n : Z) : ascii := ascii_of_N (Z.to_N n).

Definition utf8 (cp : Z) : list ascii :=
  if cp <? 128 then [of_code cp]
  else if cp <? 2048 then [of_code (192 + cp / 64); of_code (128 + cp mod 64)]
  else if cp <? 65536 then
    [of_code (224 + cp / 4096); of_code (128 + (cp / 64) mod 64);
     of_code (128 + cp mod 64)]
  else
    [of_code (240 + cp / 262144); of_code (128 + (cp / 4096) mod 64);
     of_code (128 + (cp / 64) mod 64); of_code (128 + cp mod 64)].

(** A [\uXXXX] escape whose four digits were read as [cu], followed by [r]. *)
Definition unicode_escape (cu : Z) (r : list ascii) : list ascii * list ascii :=
  let lone := (utf8 cu, r) in
  if (55296 <=? cu) && (cu <? 56320) then
    match r with
    | b :: u :: r' =>
        if at_code 92 b && at_code 117 u then
          match hex4 r' with
          | Some (lo, r'') =>
              if (56320 <=? lo) && (lo <? 57344)
              then (utf8 (65536 + (cu - 55296) * 1024 + (lo - 56320)), r'')
              else lone
          | None => lone
          end
        else lone
    | _ => lone
    end
  else lone.

(** The body of a string literal, after its opening quote. *)
Fixpoint read_string (fuel : nat) (l acc : list ascii)
  : option (string * list ascii) :=
  match fuel with
  | O => None
  | S fuel' =>
      match l with
      | [] => None
      | c :: r =>
          if at_code 34 c then Some (of_chars (rev acc), r)
          else if at_code 92 c then
            match r with
            | [] => None
            | e :: r' =>
                if at_code 34 e || at_code 92 e || at_code 47 e
                then read_string fuel' r' (e :: acc)
                else if at_code 98 e then read_string fuel' r' (byte 8 :: acc)
                else if at_code 102 e then read_string fuel' r' (byte 12 :: acc)
                else if at_code 110 e then read_string fuel' r' (byte 10 :: acc)
                else if at_code 114 e then read_string fuel' r' (byte 13 :: acc)
                else if at_code 116 e then read_string fuel' r' (byte 9 :: acc)
                else if at_code 117 e then
                  match hex4 r' with
                  | Some (cu, r'') =>
                      let '(bytes, rest) := unicode_escape cu r'' in
                      read_string fuel' rest (rev bytes ++ acc)
                  | None => None
                  end
                else None
            end
          else if code c <? 32 then None
          else read_string fuel' r (c :: acc)
      end
  end.

Definition read_exponent (l : list ascii) : option (Z * list ascii) :=
  match l with
  | c :: r =>
      if at_code 101 c || at_code 69 c then
        let '(neg, r1) :=
          match r with
          | s :: r' =>
              if at_code 45 s then (true, r')
              else if at_code 43 s then (false, r') else (false, r)
          | [] => (false, r)
          end in
        match span_digits r1 with
        | ([], _) => None
        | (ds, rest) =>
            Some (if neg then - digits_value ds else digits_value ds, rest)
        end
      else Some (0, l)
  | [] => Some (0, l)
  end.

Definition read_fraction (l : list ascii) : option (list ascii * list ascii) :=
  match l with
  | c :: r =>
      if at_code 46 c then
        match span_digits r with
        | ([], _) => None
        | (ds, rest) => Some (ds, rest)
        end
      else Some ([], l)
  | [] => Some ([], l)
  end.

Definition read_number (l : list ascii) : option (json * list ascii) :=
  let '(neg, l1) :=
    match l with
    | c :: r => if at_code 45 c then (true, r) else (false, l)
    | [] => (false, l)
    end in
  match span_digits l1 with
  | ([], _) => None
  | (d :: ds, l2) =>
      if at_code 48 d && negb (Nat.eqb (length ds) 0) then None
      else
        match read_fraction l2 with
        | None => None
        | Some (fs, l3) =>
            match read_exponent l3 with
            | None => None
            | Some (e, l4) =>
                let m := digits_value ((d :: ds) ++ fs) in
                Some (JNum (if neg then - m else m)
                           (e - Z.of_nat (length fs)), l4)
            end
        end
  end.

Definition literal (word : string) (v : json) (l : list ascii)
  : option (json * list ascii) :=
  match drop_prefix (chars word) l with
  | Some r => Some (v, r)
  | None => None
  end.

Fixpoint read_value (fuel : nat) (l : list ascii)
  : option (json * list ascii) :=
  match fuel with
  | O => None
  | S fuel' =>
      match skip_space l with
      | [] => None
      | c :: r =>
          if at_code 34 c then
            match read_string (length r) r [] with
            | Some (s, rest) => Some (JStr s, rest)
            | None => None
            end
          else if at_code 91 c then
            match skip_space r with
            | c' :: r' =>
                if at_code 93 c' then Some (JArr [], r')
                else read_items fuel' r []
            | [] => None
            end
          else if at_code 123 c then
            match skip_space r with
            | c' :: r' =>
                if at_code 125 c' then Some (JObj [], r')
                else read_members fuel' r []
            | [] => None
            end
          else if at_code 110 c then literal "null" JNull (c :: r)
          else if at_code 116 c then literal "true" (JBool true) (c :: r)
          else if at_code 102 c then literal "false" (JBool false) (c :: r)
          else read_number (c :: r)
      end
  end
with read_items (fuel : nat) (l : list ascii) (acc : list json)
  : option (json * list ascii) :=
  match fuel with
  | O => None
  | S fuel' =>
      match read_value fuel' l with
      | None => None
      | Some (v, r) =>
          match skip_space r with
          | c :: r' =>
              if at_code 44 c then read_items fuel' r' (v :: acc)
              else if at_code 93 c then Some (JArr (rev (v :: acc)), r')
              else None
          | [] => None
          end
      end
  end
with read_members (fuel : nat) (l : list ascii) (acc : list (string * json))
  : option (json * list ascii) :=
  match fuel with
  | O => None
  | S fuel' =>
      match skip_space l with
      | q :: l1 =>
          if at_code 34 q then
            match read_string (length l1) l1 [] with
            | None => None
            | Some (k, l2) =>
                match skip_space l2 with
                | colon :: l3 =>
                    if at_code 58 colon then
                      match read_value fuel' l3 with
                      | None => None
                      | Some (v, r) =>
                          match skip_space r with
                          | c :: r' =>
                              if at_code 44 c
                              then read_members fuel' r' (set k v acc)
                              else if at_code 125 c
                              then Some (JObj (set k v acc), r')
                              else None
                          | [] => None
                          end
                      end
                    else None
                | [] => None
                end
            end
          else None
      | [] => None
      end
  end.

(** [JSON.parse(s)]; [None] when it throws a [SyntaxError]. *)
Definition parse (s : string) : option json :=
  let l := chars s in
  match read_value (2 * length l + 2) l with
  | Some (v, r) =>
      match skip_space r with
      | [] => Some v
      | _ :: _ => None
      end
  | None => None
  end.

(** *** Writing *)

Definition hex_char (n : Z) : ascii :=
  if n <? 10 then of_code (48 + n) else of_code (87 + n).

Definition escape_char (c : ascii) : list ascii :=
  let n := code c in
  if n =? 34 then [byte 92; byte 34]
  else if n =? 92 then [byte 92; byte 92]
  else if n =? 8 then [byte 92; byte 98]
  else if n =? 12 then [byte 92; byte 102]
  else if n =? 10 then [byte 92; byte 110]
  else if n =? 13 then [byte 92; byte 114]
  else if n =? 9 then [byte 92; byte 116]
  else if n <? 32 then
    [byte 92; byte 117; byte 48; byte 48; hex_char (n / 16); hex_char (n mod 16)]
  else [c].

Definition quote (s : string) : string :=
  of_chars (byte 34 :: flat_map escape_char (chars s) ++ [byte 34]).

(** An integer is written with its digits, as JavaScript does; another
    number is written in exponent form, which reads back as the same
    number. *)
Definition number (m e : Z) : string :=
  if 0 <=? e then pretty (m * 10 ^ e)
  else pretty m +:+ "e" +:+ pretty e.

Definition line_break : string := String newline EmptyString.

(** [JSON.stringify(j, null, 2)], [ind] being the current indentation. *)
Fixpoint print (ind : string) (j : json) : string :=
  let ind' := ind +:+ "  " in
  match j with
  | JNull => "null"
  | JBool true => "true"
  | JBool false => "false"
  | JNum m e => number m e
  | JStr s => quote s
  | JArr [] => "[]"
  | JArr items =>
      "[" +:+ line_break
      +:+ String.concat ("," +:+ line_break)
            (map (fun x => ind' +:+ print ind' x) items)
      +:+ line_break +:+ ind +:+ "]"
  | JObj [] => "{}"
  | JObj ms =>
      "{" +:+ line_break
      +:+ String.concat ("," +:+ line_break)
            (map (fun kv => ind' +:+ quote (fst kv) +:+ ": "
                            +:+ print ind' (snd kv)) ms)
      +:+ line_break +:+ ind +:+ "}"
  end.

Definition stringify (j : json) : string := print "" j.

(** The integer a number denotes, when it denotes one. *)
Definition integer (m e : Z) : option Z :=
  if 0 <=? e then Some (m * 10 ^ e)
  else if m mod 10 ^ (- e) =? 0 then Some (m / 10 ^ (- e))
  else None.

End Json.

Export Json(json(..)).

(** ** The platform: paths, JSON at a type, the file system *)

(** [path.join], [path.dirname] and [os.homedir] of Node, and
    [resolveUserPath] of [../utils.js]. *)
Class Platform := {
  path_join : string -> string -> string;
  path_dirname : string -> string;
  resolveUserPath : string -> string;
  homedir : string
}.

(** [JSON.parse(s) as A]: [None] when [JSON.parse] throws. *)
Class JsonParse (A : Type) := JSON_parse : string -> option A.

(** [JSON.stringify(a, null, 2)]. *)
Class JsonStringify (A : Type) := JSON_stringify : A -> string.

Module Fs.

(** A path holds a regular file, with the permissions of the process on it,
    or a directory. The directory tree itself is not modelled: a path is
    looked up as a whole. *)
Inductive node : Type :=
| File (readable writable : bool) (content : string)
| Directory.

Abbreviation FileSystem := (gmap string node).

(** [fs.readFile(p, "utf-8")]; [None] when it rejects. *)
Definition readFile (fs : FileSystem) (p : string) : option string :=
  match fs !! p with
  | Some (File true _ content) => Some content
  | _ => None
  end.

(** What the file at [p] holds, whoever may read it. *)
Definition content (fs : FileSystem) (p : string) : option string :=
  match fs !! p with
  | Some (File _ _ c) => Some c
  | _ => None
  end.

(** The file system after [fs.writeFile(p, data)]; [None] when it rejects. *)
Definition writeFile (fs : FileSystem) (p data : string) : option FileSystem :=
  match fs !! p with
  | Some (File r true _) => Some (<[p := File r true data]> fs)
  | Some (File _ false _) => None
  | Some Directory => None
  | None => Some (<[p := File true true data]> fs)
  end.

(** [fs.mkdir(p, { recursive: true })]; [None] when it rejects. *)
Definition mkdir (fs : FileSystem) (p : string) : option FileSystem :=
  match fs !! p with
  | Some Directory => Some fs
  | Some (File _ _ _) => None
  | None => Some (<[p := Directory]> fs)
  end.

Definition existsSync (fs : FileSystem) (p : string) : bool :=
  match fs !! p with
  | Some _ => true
  | None => false
  end.



End Fs.

Export Fs(node(..)).
Import Fs.

(** ** [src/agents/claude-cli-runner.ts] *)

Module ClaudeCliRunner.
Import JsString.

Record Payload := { text : option string }.

Record Usage := {
  input : Z;
  output : Z;
  cacheRead : Z;
  cacheWrite : Z
}.

Record Meta := {
  durationMs : Z;
  meta_sessionId : option string;
  meta_model : option string;
  costUsd : option (Z * Z);
  usage : option Usage;
  meta_aborted : option bool
}.

Record ClaudeCliRunResult := {
  payloads : option (list Payload);
  meta : Meta
}.

Record UsageBlock := {
  input_tokens : option Z;
  output_tokens : option Z;
  cache_read_input_tokens : option Z;
  cache_creation_input_tokens : option Z
}.

Record ModelUsage := {
  inputTokens : option Z;
  outputTokens : option Z;
  cacheReadInputTokens : option Z;
  cacheCreationInputTokens : option Z
}.

(** The document the CLI prints. Every field is optional here, since the
    source reads them defensively ([result.usage?.], [if (result.session_id)])
    and parses lines of any shape; [modelUsage] lists its entries in the order
    of [Object.keys]. *)
Record ClaudeJsonResult := {
  type : option string;
  subtype : option string;
  is_error : option bool;
  duration_ms : option Z;
  result : option string;
  session_id : option string;
  total_cost_usd : option (Z * Z);
  usage_block : option UsageBlock;
  modelUsage : option (list (string * ModelUsage))
}.

(** [abortSignal] is the signal's [aborted] flag at the time of the call. *)
Record ClaudeCliRunnerParams := {
  sessionId : string;
  sessionKey : option string;
  workspaceDir : string;
  prompt : string;
  model : option string;
  timeoutMs : Z;
  runId : string;
  abortSignal : option bool;
  systemPrompt : option string;
  appendSystemPrompt : option string;
  continueSession : option bool;
  resumeSessionId : option string;
  allowedTools : option (list string);
  disallowedTools : option (list string);
  skipPermissions : option bool
}.

Definition with_resumeSessionId (params : ClaudeCliRunnerParams)
    (r : option string) : ClaudeCliRunnerParams :=
  {| sessionId := sessionId params;
     sessionKey := sessionKey params;
     workspaceDir := workspaceDir params;
     prompt := prompt params;
     model := model params;
     timeoutMs := timeoutMs params;
     runId := runId params;
     abortSignal := abortSignal params;
     systemPrompt := systemPrompt params;
     appendSystemPrompt := appendSystemPrompt params;
     continueSession := continueSession params;
     resumeSessionId := r;
     allowedTools := allowedTools params;
     disallowedTools := disallowedTools params;
     skipPermissions := skipPermissions params |}.

Abbreviation SessionMap := (gmap string string).

Definition SESSION_MAP_FILE : string := ".claude-sessions.json".

Definition is_true (o : option bool) : bool :=
  match o with
  | Some true => true
  | _ => false
  end.

(** [tools?.length] as a condition. *)
Definition some_tools (o : option (list string)) : list string :=
  match o with
  | Some l => l
  | None => []
  end.

Definition buildClaudeArgs (params : ClaudeCliRunnerParams) : list string :=
  let args := ["-p"; "--output-format"; "json"] in
  let args :=
    match truthy (model params) with
    | Some m => args ++ ["--model"; m]
    | None => args
    end in
  let args :=
    match truthy (systemPrompt params) with
    | Some s => args ++ ["--system-prompt"; s]
    | None => args
    end in
  let args :=
    match truthy (appendSystemPrompt params) with
    | Some s => args ++ ["--append-system-prompt"; s]
    | None => args
    end in
  let args :=
    match truthy (resumeSessionId params) with
    | Some r => args ++ ["--resume"; r]
    | None => if is_true (continueSession params)
              then args ++ ["--continue"] else args
    end in
  let args :=
    match some_tools (allowedTools params) with
    | [] => args
    | tools => args ++ "--allowed-tools" :: tools
    end in
  let args :=
    match some_tools (disallowedTools params) with
    | [] => args
    | tools => args ++ "--disallowed-tools" :: tools
    end in
  let args :=
    if is_true (skipPermissions params)
    then args ++ ["--dangerously-skip-permissions"] else args in
  args ++ [prompt params].

Inductive RunError : Type :=
| MkdirFailed
| ExitedWithCode (code : option Z) (detail : string)
| FailedToParse
| SpawnError (err : string).

Inductive Settled : Type :=
| Resolved (r : ClaudeCliRunResult)
| Rejected (e : RunError).

(** What the run does to the outside world, in order. *)
Inductive Action : Type :=
| Spawn (bin : string) (args : list string) (cwd : string)
| Kill
| WriteFile (path content : string).

(** What the child process and the timers deliver to the handlers installed
    by the run, in order; [OnClose] carries the exit code ([None] when the
    child was killed by a signal) and the reading of [Date.now()] in the
    handler. *)
Inductive ProcEvent : Type :=
| OnAbort
| OnTimeout
| OnStdoutData (chunk : string)
| OnStderrData (chunk : string)
| OnClose (code : option Z) (now : Z)
| OnError (err : string).

(** The variables the handlers close over, the promise, and the world. *)
Record RunState := {
  stdout : string;
  stderr : string;
  aborted : bool;
  timer_armed : bool;
  abort_listener : bool;
  sessionMap : SessionMap;
  promise : option Settled;
  disk : FileSystem;
  actions : list Action
}.

Definition set_stdout (s : string) (st : RunState) : RunState :=
  {| stdout := s; stderr := stderr st; aborted := aborted st;
     timer_armed := timer_armed st; abort_listener := abort_listener st;
     sessionMap := sessionMap st; promise := promise st; disk := disk st;
     actions := actions st |}.

Definition set_stderr (s : string) (st : RunState) : RunState :=
  {| stdout := stdout st; stderr := s; aborted := aborted st;
     timer_armed := timer_armed st; abort_listener := abort_listener st;
     sessionMap := sessionMap st; promise := promise st; disk := disk st;
     actions := actions st |}.

(** [aborted = true; proc.kill("SIGTERM")] *)
Definition abort_and_kill (st : RunState) : RunState :=
  {| stdout := stdout st; stderr := stderr st; aborted := true;
     timer_armed := timer_armed st; abort_listener := abort_listener st;
     sessionMap := sessionMap st; promise := promise st; disk := disk st;
     actions := actions st ++ [Kill] |}.

Definition clearTimeout (st : RunState) : RunState :=
  {| stdout := stdout st; stderr := stderr st; aborted := aborted st;
     timer_armed := false; abort_listener := abort_listener st;
     sessionMap := sessionMap st; promise := promise st; disk := disk st;
     actions := actions st |}.

(** The listener was added with [{ once: true }]. *)
Definition remove_abort_listener (st : RunState) : RunState :=
  {| stdout := stdout st; stderr := stderr st; aborted := aborted st;
     timer_armed := timer_armed st; abort_listener := false;
     sessionMap := sessionMap st; promise := promise st; disk := disk st;
     actions := actions st |}.

(** [resolve(..)] and [reject(..)]: a promise settles once, later calls do
    nothing. *)
Definition settle (o : Settled) (st : RunState) : RunState :=
  match promise st with
  | Some _ => st
  | None =>
      {| stdout := stdout st; stderr := stderr st; aborted := aborted st;
         timer_armed := timer_armed st; abort_listener := abort_listener st;
         sessionMap := sessionMap st; promise := Some o; disk := disk st;
         actions := actions st |}
  end.

Definition aborted_result (durationMs : Z) : ClaudeCliRunResult :=
  {| payloads := Some [ {| text := Some "[Claude CLI timed out or aborted]" |} ];
     meta := {| durationMs := durationMs; meta_sessionId := None;
                meta_model := None; costUsd := None; usage := None;
                meta_aborted := Some true |} |}.

Definition usage_field (u : option UsageBlock) (f : UsageBlock -> option Z) : Z :=
  match u with
  | Some b => default 0 (f b)
  | None => 0
  end.

(** The body of [for (const modelData of Object.values(result.modelUsage))]. *)
Definition add_model (totals : Usage) (modelData : ModelUsage) : Usage :=
  {| input := input totals + default 0 (inputTokens modelData);
     output := output totals + default 0 (outputTokens modelData);
     cacheRead := cacheRead totals + default 0 (cacheReadInputTokens modelData);
     cacheWrite := cacheWrite totals
                   + default 0 (cacheCreationInputTokens modelData) |}.

Definition total_usage (r : ClaudeJsonResult) : Usage :=
  let totals :=
    {| input := usage_field (usage_block r) input_tokens;
       output := usage_field (usage_block r) output_tokens;
       cacheRead := usage_field (usage_block r) cache_read_input_tokens;
       cacheWrite := usage_field (usage_block r) cache_creation_input_tokens |} in
  match modelUsage r with
  | Some (m :: ms) => fold_left add_model (map snd (m :: ms)) totals
  | _ => totals
  end.

Definition primary_model (params : ClaudeCliRunnerParams) (r : ClaudeJsonResult)
  : string :=
  match modelUsage r with
  | Some ((name, _) :: _) => name
  | _ => default "unknown" (model params)
  end.

Definition success_result (params : ClaudeCliRunnerParams) (durationMs : Z)
    (r : ClaudeJsonResult) : ClaudeCliRunResult :=
  {| payloads :=
       match truthy (result r) with
       | Some t => Some [ {| text := Some t |} ]
       | None => None
       end;
     meta := {| durationMs := durationMs;
                meta_sessionId := session_id r;
                meta_model := Some (primary_model params r);
                costUsd := total_cost_usd r;
                usage := Some (total_usage r);
                meta_aborted := Some false |} |}.

Section WithPlatform.
Context `{Platform} `{JsonParse SessionMap} `{JsonStringify SessionMap}
        `{JsonParse ClaudeJsonResult}.

Definition session_map_path (workspaceDir : string) : string :=
  path_join workspaceDir SESSION_MAP_FILE.

Definition loadSessionMap (fs : FileSystem) (workspaceDir : string) : SessionMap :=
  match readFile fs (session_map_path workspaceDir) with
  | Some content =>
      match JSON_parse content with
      | Some map => map
      | None => ∅
      end
  | None => ∅
  end.

Definition saveSessionMap (fs : FileSystem) (workspaceDir : string)
    (map : SessionMap) : option FileSystem :=
  writeFile fs (session_map_path workspaceDir) (JSON_stringify map).

(** The loop over [lines.reverse()], entered with the lines already
    reversed: a line that does not parse is skipped, the first one whose
    [type] is ["result"] ends the loop. *)
Fixpoint scan_lines (lines : list string) : option ClaudeJsonResult :=
  match lines with
  | [] => None
  | line :: rest =>
      match JSON_parse line with
      | Some parsed =>
          if decide (type parsed = Some "result") then Some parsed
          else scan_lines rest
      | None => scan_lines rest
      end
  end.

(** The [try] block around the parsing; [None] when its [catch] runs. *)
Definition parse_output (stdout : string) : option ClaudeJsonResult :=
  let lines := split_newline (trim stdout) in
  match scan_lines (rev lines) with
  | Some r => Some r
  | None => JSON_parse stdout
  end.

(** The ["close"] handler. When [saveSessionMap] rejects, the handler ends
    there: the entry is already in the map, and the promise stays as it is. *)
Definition on_close (params : ClaudeCliRunnerParams) (started : Z)
    (resolvedWorkspace : string) (code : option Z) (now : Z) (st : RunState)
  : RunState :=
  let st := clearTimeout st in
  let durationMs := now - started in
  if aborted st then settle (Resolved (aborted_result durationMs)) st
  else
    match code with
    | Some 0 =>
        match parse_output (stdout st) with
        | None => settle (Rejected FailedToParse) st
        | Some r =>
            match truthy (session_id r) with
            | Some claude_session =>
                let map := <[sessionId params := claude_session]> (sessionMap st) in
                let st :=
                  {| stdout := stdout st; stderr := stderr st;
                     aborted := aborted st; timer_armed := timer_armed st;
                     abort_listener := abort_listener st;
                     sessionMap := map; promise := promise st;
                     disk := disk st; actions := actions st |} in
                match saveSessionMap (disk st) resolvedWorkspace map with
                | None => st
                | Some disk' =>
                    settle (Resolved (success_result params durationMs r))
                      {| stdout := stdout st; stderr := stderr st;
                         aborted := aborted st; timer_armed := timer_armed st;
                         abort_listener := abort_listener st;
                         sessionMap := map; promise := promise st;
                         disk := disk';
                         actions := actions st
                           ++ [WriteFile (session_map_path resolvedWorkspace)
                                         (JSON_stringify map)] |}
                end
            | None => settle (Resolved (success_result params durationMs r)) st
            end
        end
    | _ =>
        settle (Rejected (ExitedWithCode code
                  (match stderr st with
                   | EmptyString => stdout st
                   | _ => stderr st
                   end))) st
    end.

(** One delivery to a handler. A timer that was cleared does not fire and a
    removed or absent listener is not called. *)
Definition handle (params : ClaudeCliRunnerParams) (started : Z)
    (resolvedWorkspace : string) (st : RunState) (ev : ProcEvent) : RunState :=
  match ev with
  | OnAbort =>
      if abort_listener st
      then abort_and_kill (remove_abort_listener st) else st
  | OnTimeout =>
      if timer_armed st then abort_and_kill (clearTimeout st) else st
  | OnStdoutData chunk => set_stdout (stdout st +:+ chunk) st
  | OnStderrData chunk => set_stderr (stderr st +:+ chunk) st
  | OnClose code now => on_close params started resolvedWorkspace code now st
  | OnError err => settle (Rejected (SpawnError err)) (clearTimeout st)
  end.

(** The state when the executor of [new Promise] returns. *)
Definition spawned (params : ClaudeCliRunnerParams) (claudeBin : string)
    (args : list string) (resolvedWorkspace : string) (map : SessionMap)
    (fs : FileSystem) : RunState :=
  let st :=
    {| stdout := ""; stderr := ""; aborted := false; timer_armed := false;
       abort_listener := false; sessionMap := map; promise := None;
       disk := fs; actions := [Spawn claudeBin args resolvedWorkspace] |} in
  let st :=
    match abortSignal params with
    | Some true => abort_and_kill st
    | Some false =>
        {| stdout := stdout st; stderr := stderr st; aborted := aborted st;
           timer_armed := timer_armed st; abort_listener := true;
           sessionMap := sessionMap st; promise := promise st;
           disk := disk st; actions := actions st |}
    | None => st
    end in
  {| stdout := stdout st; stderr := stderr st; aborted := aborted st;
     timer_armed := true; abort_listener := abort_listener st;
     sessionMap := sessionMap st; promise := promise st;
     disk := disk st; actions := actions st |}.

Definition claude_bin (CLAUDE_CLI_PATH : option string) : string :=
  default "/opt/homebrew/bin/claude" (truthy CLAUDE_CLI_PATH).

(** The parameters [buildClaudeArgs] is called with. *)
Definition runParams (map : SessionMap) (params : ClaudeCliRunnerParams)
  : ClaudeCliRunnerParams :=
  let existingClaudeSession := map !! sessionId params in
  with_resumeSessionId params
    (or_else existingClaudeSession (resumeSessionId params)).

(** One call of [runClaudeCliAgent]: [CLAUDE_CLI_PATH] is the environment
    variable, [fs] the file system and [started] the reading of [Date.now()]
    on entry, [events] what is delivered afterwards. The result holds the
    promise the call returned ([None]: still pending) and what the call did. *)
Definition runClaudeCliAgent (params : ClaudeCliRunnerParams)
    (CLAUDE_CLI_PATH : option string) (fs : FileSystem) (started : Z)
    (events : list ProcEvent) : RunState :=
  let resolvedWorkspace := resolveUserPath (workspaceDir params) in
  match mkdir fs resolvedWorkspace with
  | None =>
      {| stdout := ""; stderr := ""; aborted := false; timer_armed := false;
         abort_listener := false; sessionMap := ∅;
         promise := Some (Rejected MkdirFailed); disk := fs; actions := [] |}
  | Some fs =>
      let sessionMap := loadSessionMap fs resolvedWorkspace in
      let args := buildClaudeArgs (runParams sessionMap params) in
      let claudeBin := claude_bin CLAUDE_CLI_PATH in
      fold_left (handle params started resolvedWorkspace) events
        (spawned params claudeBin args resolvedWorkspace sessionMap fs)
  end.

End WithPlatform.

(** [isClaudeCliAvailable]: the promise it returns, [None] while pending, and
    what the call did. The probe installs two handlers, for ["close"] and
    for ["error"], and nothing else: no timer, no abort, no reader of the
    streams. [cwd] is the working directory of the process, which the child
    inherits. *)
Record ProbeState := {
  available : option bool;
  probe_actions : list Action
}.

(** [resolve(b)] *)
Definition probe_resolve (b : bool) (st : ProbeState) : ProbeState :=
  match available st with
  | Some _ => st
  | None => {| available := Some b; probe_actions := probe_actions st |}
  end.

Definition probe_handle (st : ProbeState) (ev : ProcEvent) : ProbeState :=
  match ev with
  | OnClose code _ =>
      probe_resolve (match code with Some 0 => true | _ => false end) st
  | OnError _ => probe_resolve false st
  | _ => st
  end.

Definition isClaudeCliAvailable (CLAUDE_CLI_PATH : option string)
    (cwd : string) (events : list ProcEvent) : ProbeState :=
  let claudeBin := claude_bin CLAUDE_CLI_PATH in
  fold_left probe_handle events
    {| available := None;
       probe_actions := [Spawn claudeBin ["--version"] cwd] |}.

End ClaudeCliRunner.

(** ** [scripts/sync-claude-oauth.ts] *)

Module SyncClaudeOAuth.

Definition TOKEN_URL : string := "https://console.anthropic.com/v1/oauth/token".
(** [atob("OWQxYzI1MGEtZTYxYi00NGQ5LTg4ZWQtNTk0NGQxOTYyZjVl")] *)
Definition CLIENT_ID : string := "9d1c250a-e61b-44d9-88ed-5944d1962f5e".
Definition EXPIRY_BUFFER_MS : Z := 5 * 60 * 1000.
Definition REFRESH_THRESHOLD_MS : Z := 10 * 60 * 1000.

Record ClaudeAiOauth := {
  accessToken : string;
  refreshToken_ : string;
  expiresAt : Z
}.

Record ClaudeCredentials := { claudeAiOauth : option ClaudeAiOauth }.

(** The value of [finalCreds], stored under the key ["anthropic"]. *)
Record Credentials := {
  access : string;
  refresh : string;
  expires : Z
}.

(** The store: a JSON object, of which the script knows one key. Its members
    are kept as they are in the file, in the order of the object. *)
Abbreviation ClawdbotOAuth := (list (string * json)).

Definition credentials_json (c : Credentials) : json :=
  JObj [ ("access", JStr (access c));
         ("refresh", JStr (refresh c));
         ("expires", JNum (expires c) 0) ].

(** The body of the answer of the token endpoint. *)
Record TokenResponse := {
  access_token : string;
  refresh_token : string;
  expires_in : Z
}.

(** The [POST] request sent by [refreshToken]. *)
Record Request := {
  url : string;
  grant_type : string;
  client_id : string;
  posted_refresh_token : string
}.

(** The outcome of [fetch]: it throws, or gives a response with its [ok]
    flag and its body. *)
Inductive FetchResult : Type :=
| NetworkError
| Response (ok : bool) (body : string).

(** What one execution of the script meets: the file system, the successive
    readings of [Date.now()] (the n-th call gives [Date_now n]), and the
    answer of the token endpoint. *)
Record World := {
  disk : FileSystem;
  Date_now : nat -> Z;
  token_endpoint : Request -> FetchResult
}.

(** What the execution leaves: the exit code of the process, the file system
    and the requests sent. *)
Record Outcome := {
  exit_code : Z;
  disk_after : FileSystem;
  requests : list Request
}.

Section WithPlatform.
Context `{Platform} `{JsonParse ClaudeCredentials} `{JsonParse TokenResponse}
        `{JsonParse ClawdbotOAuth} `{JsonStringify ClawdbotOAuth}.

Definition CLAUDE_CREDS_PATH : string :=
  path_join (path_join homedir ".claude") ".credentials.json".
Definition CLAWDBOT_OAUTH_PATH : string :=
  path_join (path_join (path_join homedir ".clawdbot") "credentials") "oauth.json".

Definition refresh_request (refreshToken : string) : Request :=
  {| url := TOKEN_URL; grant_type := "refresh_token"; client_id := CLIENT_ID;
     posted_refresh_token := refreshToken |}.

(** [refreshToken]; [None] when it throws. [now] is the reading of
    [Date.now()] made once the answer has been decoded. *)
Definition refreshToken (w : World) (now : Z) (refreshToken : string)
  : option Credentials :=
  match token_endpoint w (refresh_request refreshToken) with
  | NetworkError => None
  | Response false _ => None
  | Response true body =>
      match JSON_parse body with
      | None => None
      | Some data =>
          Some {| access := access_token data;
                  refresh := refresh_token data;
                  expires := now + expires_in data * 1000 - EXPIRY_BUFFER_MS |}
      end
  end.

(** [process.exit(1)], also reached through [main().catch]. *)
Definition failed (w : World) (sent : list Request) : Outcome :=
  {| exit_code := 1; disk_after := disk w; requests := sent |}.

(** The value of [existing] when [existing.anthropic] is assigned. *)
Definition read_existing (fs : FileSystem) : ClawdbotOAuth :=
  if existsSync fs CLAWDBOT_OAUTH_PATH then
    match readFile fs CLAWDBOT_OAUTH_PATH with
    | Some content =>
        match JSON_parse content with
        | Some existing => existing
        | None => []
        end
    | None => []
    end
  else [].

(** The object the script serialises. *)
Definition synced (existing : ClawdbotOAuth) (finalCreds : Credentials)
  : ClawdbotOAuth :=
  Json.set "anthropic" (credentials_json finalCreds) existing.

Definition oauth_file (existing : ClawdbotOAuth) (finalCreds : Credentials)
  : string :=
  JSON_stringify (synced existing finalCreds) +:+ Json.line_break.

(** The second half of [main], from [const dir] on. *)
Definition write_store (w : World) (sent : list Request)
    (finalCreds : Credentials) : Outcome :=
  let dir := path_dirname CLAWDBOT_OAUTH_PATH in
  match (if existsSync (disk w) dir then Some (disk w) else mkdir (disk w) dir) with
  | None => failed w sent
  | Some fs =>
      let existing := read_existing fs in
      match writeFile fs CLAWDBOT_OAUTH_PATH (oauth_file existing finalCreds) with
      | None => failed w sent
      | Some fs' => {| exit_code := 0; disk_after := fs'; requests := sent |}
      end
  end.

Definition isExpired (w : World) (o : ClaudeAiOauth) : bool :=
  Date_now w 0 >? expiresAt o - REFRESH_THRESHOLD_MS.

(** Both branches log [new Date(t).toISOString()], which throws a
    [RangeError] when [t] is outside the range of [Date]. *)
Definition toISOString_ok (t : Z) : bool :=
  (- 8640000000000000 <=? t) && (t <=? 8640000000000000).

Definition main (w : World) : Outcome :=
  if negb (existsSync (disk w) CLAUDE_CREDS_PATH) then failed w []
  else
    match readFile (disk w) CLAUDE_CREDS_PATH with
    | None => failed w []
    | Some content =>
        match JSON_parse content with
        | None => failed w []
        | Some claudeCreds =>
            match claudeAiOauth claudeCreds with
            | None => failed w []
            | Some o =>
                if isExpired w o then
                  let sent := [refresh_request (refreshToken_ o)] in
                  match refreshToken w (Date_now w 1) (refreshToken_ o) with
                  | None => failed w sent
                  | Some finalCreds =>
                      if toISOString_ok (expires finalCreds)
                      then write_store w sent finalCreds
                      else failed w sent
                  end
                else if toISOString_ok (expiresAt o) then
                  write_store w []
                    {| access := accessToken o; refresh := refreshToken_ o;
                       expires := expiresAt o |}
                else failed w []
            end
        end
    end.

End WithPlatform.

End SyncClaudeOAuth.

(** ** A concrete platform

    Instances of the platform classes, to run the two programs on sample
    inputs: [Json.parse] and [Json.stringify], read at each type by taking
    the declared fields of an object. A field that is missing, [null] or of
    another type than declared is read as absent. Paths are joined with a
    slash, which is what [path.join] does on normalised POSIX segments. *)

Module Codec.
Import Json ClaudeCliRunner SyncClaudeOAuth.

Definition members (j : json) : list (string * json) :=
  match j with
  | JObj ms => ms
  | _ => []
  end.

Definition str_field (k : string) (j : json) : option string :=
  match get k (members j) with
  | Some (JStr s) => Some s
  | _ => None
  end.

Definition bool_field (k : string) (j : json) : option bool :=
  match get k (members j) with
  | Some (JBool b) => Some b
  | _ => None
  end.

Definition num_field (k : string) (j : json) : option (Z * Z) :=
  match get k (members j) with
  | Some (JNum m e) => Some (m, e)
  | _ => None
  end.

Definition int_field (k : string) (j : json) : option Z :=
  match get k (members j) with
  | Some (JNum m e) => integer m e
  | _ => None
  end.

Definition obj_field (k : string) (j : json) : option json :=
  match get k (members j) with
  | Some (JObj ms) => Some (JObj ms)
  | _ => None
  end.

Definition usage_of (j : json) : UsageBlock :=
  {| input_tokens := int_field "input_tokens" j;
     output_tokens := int_field "output_tokens" j;
     cache_read_input_tokens := int_field "cache_read_input_tokens" j;
     cache_creation_input_tokens := int_field "cache_creation_input_tokens" j |}.

Definition model_usage_of (j : json) : ModelUsage :=
  {| inputTokens := int_field "inputTokens" j;
     outputTokens := int_field "outputTokens" j;
     cacheReadInputTokens := int_field "cacheReadInputTokens" j;
     cacheCreationInputTokens := int_field "cacheCreationInputTokens" j |}.

Definition result_of (j : json) : ClaudeJsonResult :=
  {| type := str_field "type" j;
     subtype := str_field "subtype" j;
     is_error := bool_field "is_error" j;
     duration_ms := int_field "duration_ms" j;
     result := str_field "result" j;
     session_id := str_field "session_id" j;
     total_cost_usd := num_field "total_cost_usd" j;
     usage_block := option_map usage_of (obj_field "usage" j);
     modelUsage :=
       option_map
         (fun o => map (fun kv => (fst kv, model_usage_of (snd kv))) (members o))
         (obj_field "modelUsage" j) |}.

(** A line that is [null] is skipped by the scan like one that does not
    parse; it is read as such. *)
#[export] Instance parse_result : JsonParse ClaudeJsonResult := fun s =>
  match parse s with
  | Some JNull => None
  | Some j => Some (result_of j)
  | None => None
  end.

Fixpoint strings_of (ms : list (string * json)) : option (list (string * string)) :=
  match ms with
  | [] => Some []
  | (k, JStr v) :: r =>
      match strings_of r with
      | Some l => Some ((k, v) :: l)
      | None => None
      end
  | _ :: _ => None
  end.

#[export] Instance parse_session_map : JsonParse SessionMap := fun s =>
  match parse s with
  | Some (JObj ms) => option_map list_to_map (strings_of ms)
  | _ => None
  end.

#[export] Instance stringify_session_map : JsonStringify SessionMap := fun m =>
  stringify (JObj (map (fun kv => (fst kv, JStr (snd kv))) (map_to_list m))).

#[export] Instance parse_credentials : JsonParse ClaudeCredentials := fun s =>
  match parse s with
  | Some (JObj ms) =>
      match obj_field "claudeAiOauth" (JObj ms) with
      | None => Some {| claudeAiOauth := None |}
      | Some o =>
          match str_field "accessToken" o, str_field "refreshToken" o,
                int_field "expiresAt" o with
          | Some a, Some r, Some e =>
              Some {| claudeAiOauth :=
                        Some {| accessToken := a; refreshToken_ := r;
                                expiresAt := e |} |}
          | _, _, _ => None
          end
      end
  | _ => None
  end.

#[export] Instance parse_token_response : JsonParse TokenResponse := fun s =>
  match parse s with
  | Some j =>
      match str_field "access_token" j, str_field "refresh_token" j,
            int_field "expires_in" j with
      | Some a, Some r, Some e =>
          Some {| access_token := a; refresh_token := r; expires_in := e |}
      | _, _, _ => None
      end
  | None => None
  end.

#[export] Instance parse_store : JsonParse ClawdbotOAuth := fun s =>
  match parse s with
  | Some (JObj ms) => Some ms
  | _ => None
  end.

#[export] Instance stringify_store : JsonStringify ClawdbotOAuth := fun ms =>
  stringify (JObj ms).

Fixpoint dirname_chars (l : list ascii) : list ascii :=
  match l with
  | [] => []
  | c :: r =>
      if existsb (at_code 47) r then c :: dirname_chars r else []
  end.

#[export] Instance posix : Platform := {|
  path_join := fun a b => a +:+ "/" +:+ b;
  path_dirname := fun p => JsString.of_chars (dirname_chars (JsString.chars p));
  resolveUserPath := fun p => p;
  homedir := "/home/user"
|}.

End Codec.

(** ** The vocabulary of the properties *)

Module RunnerSpec.
Import JsString ClaudeCliRunner.

(** The child is gone, or could not be started or signalled. *)
Definition terminal (ev : ProcEvent) : bool :=
  match ev with
  | OnClose _ _ | OnError _ => true
  | _ => false
  end.

(** The events delivered while the child runs: no ["close"], no ["error"]. *)
Definition running (pre : list ProcEvent) : Prop :=
  Forall (fun ev => terminal ev = false) pre.

Definition is_abort (ev : ProcEvent) : bool :=
  match ev with
  | OnAbort => true
  | _ => false
  end.

Definition is_timeout (ev : ProcEvent) : bool :=
  match ev with
  | OnTimeout => true
  | _ => false
  end.

(** The abort signal has fired: it was aborted already at the call, or the
    signal that was passed fires among [pre]. *)
Definition abort_fired (params : ClaudeCliRunnerParams) (pre : list ProcEvent)
  : bool :=
  match abortSignal params with
  | Some true => true
  | Some false => existsb is_abort pre
  | None => false
  end.

(** The timer of [timeoutMs] milliseconds has elapsed among [pre]. *)
Definition timeout_elapsed (pre : list ProcEvent) : bool :=
  existsb is_timeout pre.

(** What was captured of the two streams. *)
Definition stdout_of (pre : list ProcEvent) : string :=
  fold_left (fun acc ev =>
               match ev with
               | OnStdoutData chunk => acc +:+ chunk
               | _ => acc
               end) pre "".

Definition stderr_of (pre : list ProcEvent) : string :=
  fold_left (fun acc ev =>
               match ev with
               | OnStderrData chunk => acc +:+ chunk
               | _ => acc
               end) pre "".

Definition is_spawn (a : Action) : bool :=
  match a with
  | Spawn _ _ _ => true
  | _ => false
  end.


Definition spawn_count (acts : list Action) : nat :=
  length (filter (fun a => is_spawn a = true) acts).

Definition is_kill (a : Action) : bool :=
  match a with
  | Kill => true
  | _ => false
  end.

(** How many times [proc.kill("SIGTERM")] was called. *)
Definition kill_count (acts : list Action) : nat :=
  length (filter (fun a => is_kill a = true) acts).

(** The first ["close"] or ["error"] among the deliveries. *)
Definition first_terminal (events : list ProcEvent) : option ProcEvent :=
  head (filter (fun ev => terminal ev = true) events).



(** The sum of one per-model field over the entries of [modelUsage]. *)
Definition sum_over (f : ModelUsage -> option Z)
    (entries : list (string * ModelUsage)) : Z :=
  foldr (fun entry acc => default 0 (f (snd entry)) + acc) 0 entries.

Definition model_entries (r : ClaudeJsonResult) : list (string * ModelUsage) :=
  default [] (modelUsage r).

(** The arguments [buildClaudeArgs] pushes, group by group. *)
Definition flag_with (flag : string) (v : option string) : list string :=
  match v with
  | Some s => [flag; s]
  | None => []
  end.

Definition tools_flag (flag : string) (tools : list string) : list string :=
  match tools with
  | [] => []
  | _ => flag :: tools
  end.

Definition session_flags (p : ClaudeCliRunnerParams) : list string :=
  match truthy (resumeSessionId p) with
  | Some r => ["--resume"; r]
  | None => if is_true (continueSession p) then ["--continue"] else []
  end.

(** What comes before the session flags, and what comes after. *)
Definition leading_flags (p : ClaudeCliRunnerParams) : list string :=
  ["-p"; "--output-format"; "json"]
  ++ flag_with "--model" (truthy (model p))
  ++ flag_with "--system-prompt" (truthy (systemPrompt p))
  ++ flag_with "--append-system-prompt" (truthy (appendSystemPrompt p)).

Definition trailing_flags (p : ClaudeCliRunnerParams) : list string :=
  tools_flag "--allowed-tools" (some_tools (allowedTools p))
  ++ tools_flag "--disallowed-tools" (some_tools (disallowedTools p))
  ++ (if is_true (skipPermissions p)
      then ["--dangerously-skip-permissions"] else [])
  ++ [prompt p].

(** The state [st] is reached from [st0] by the deliveries [pre], made while
    the child runs. *)
Record reached (st0 st : RunState) (pre : list ProcEvent) : Prop := {
  reached_promise : promise st = promise st0;
  reached_disk : ClaudeCliRunner.disk st = ClaudeCliRunner.disk st0;
  reached_map : sessionMap st = sessionMap st0;
  reached_stdout :
    stdout st = fold_left (fun acc ev =>
                             match ev with
                             | OnStdoutData chunk => acc +:+ chunk
                             | _ => acc
                             end) pre (stdout st0);
  reached_stderr :
    stderr st = fold_left (fun acc ev =>
                             match ev with
                             | OnStderrData chunk => acc +:+ chunk
                             | _ => acc
                             end) pre (stderr st0);
  reached_timer : timer_armed st = timer_armed st0 && negb (timeout_elapsed pre);
  reached_listener :
    abort_listener st = abort_listener st0 && negb (existsb is_abort pre);
  reached_aborted :
    aborted st = aborted st0
                 || (abort_listener st0 && existsb is_abort pre)
                 || (timer_armed st0 && timeout_elapsed pre);
  reached_actions : exists n, actions st = actions st0 ++ repeat Kill n
}.

Section WithPlatform.
Context `{Platform} `{JsonParse SessionMap} `{JsonStringify SessionMap}
        `{JsonParse ClaudeJsonResult}.

(** A line that parses as JSON with [type] ["result"]. *)
Definition result_line (line : string) : option ClaudeJsonResult :=
  match JSON_parse line with
  | Some parsed =>
      if decide (type parsed = Some "result") then Some parsed else None
  | None => None
  end.




(** The state in which the first terminal event finds a run that started on
    the file system [fs1] (the workspace directory made) and was delivered
    [pre]. *)
Record before_close (params : ClaudeCliRunnerParams)
    (CLAUDE_CLI_PATH : option string) (fs1 : FileSystem)
    (pre : list ProcEvent) (st : RunState) : Prop := {
  bc_promise : promise st = None;
  bc_disk : ClaudeCliRunner.disk st = fs1;
  bc_map :
    sessionMap st = loadSessionMap fs1 (resolveUserPath (workspaceDir params));
  bc_stdout : stdout st = stdout_of pre;
  bc_stderr : stderr st = stderr_of pre;
  bc_aborted : aborted st = abort_fired params pre || timeout_elapsed pre;
  bc_actions : exists n,
    actions st =
      Spawn (claude_bin CLAUDE_CLI_PATH)
            (buildClaudeArgs
               (runParams
                  (loadSessionMap fs1 (resolveUserPath (workspaceDir params)))
                  params))
            (resolveUserPath (workspaceDir params)) :: repeat Kill n
}.

End WithPlatform.

End RunnerSpec.

Module FsSpec.



(** From [fs] to [fs'] nothing that was there has been changed or removed,
    and no regular file has appeared, except at the path [target];
    directories may have been made. *)
Definition preserved_except (target : string) (fs fs' : FileSystem) : Prop :=
  (forall p n, p <> target -> fs !! p = Some n -> fs' !! p = Some n)
  /\ (forall p r w c, p <> target ->
        fs' !! p = Some (File r w c) -> fs !! p = Some (File r w c)).

End FsSpec.

Module SyncSpec.
Import SyncClaudeOAuth.


Section WithPlatform.
Context `{Platform} `{JsonParse ClawdbotOAuth}.


(** The store as the script finds it on the disk it starts with: what
    [oauth.json] parses to, the empty object when the file is missing,
    cannot be read or does not parse. *)
Definition existing_store (fs : FileSystem) : ClawdbotOAuth :=
  match readFile fs CLAWDBOT_OAUTH_PATH with
  | Some text => default [] (JSON_parse text)
  | None => []
  end.

End WithPlatform.

End SyncSpec.

(** ** Sample inputs *)

Module Samples.
Import JsString Json ClaudeCliRunner SyncClaudeOAuth Codec.

(** JSON text, written here with ['] where the text has a double quote. *)
Definition json_text (s : string) : string :=
  of_chars (map (fun c => if at_code 39 c then byte 34 else c) (chars s)).

Definition params : ClaudeCliRunnerParams :=
  {| sessionId := "s1"; sessionKey := None; workspaceDir := "/ws";
     prompt := "hi"; model := None; timeoutMs := 1000; runId := "run-1";
     abortSignal := Some false; systemPrompt := None;
     appendSystemPrompt := None; continueSession := Some true;
     resumeSessionId := None; allowedTools := None; disallowedTools := None;
     skipPermissions := None |}.

Definition sessions_file : string := "/ws/.claude-sessions.json".

(** A workspace whose session map knows another session. *)
Definition workspace : FileSystem :=
  {[ "/ws" := Directory;
     sessions_file := File true true (json_text "{'other': 'c-0'}") ]}.


(** A workspace whose session map is not JSON. *)
Definition corrupt_text : string := "{'s1': ".

Definition workspace_corrupt : FileSystem :=
  {[ "/ws" := Directory; sessions_file := File true true corrupt_text ]}.


Definition cli_output : string :=
  json_text "warming up
{'type':'system','subtype':'init'}
{'type':'result','subtype':'success','is_error':false,'result':'hello','session_id':'c-9','total_cost_usd':0.0123,'usage':{'input_tokens':5,'output_tokens':7},'modelUsage':{'opus':{'inputTokens':10},'haiku':{'inputTokens':1,'outputTokens':2}}}
".

Definition cli_result : ClaudeJsonResult :=
  {| type := Some "result"; subtype := Some "success"; is_error := Some false;
     duration_ms := None; result := Some "hello"; session_id := Some "c-9";
     total_cost_usd := Some (123, -4);
     usage_block :=
       Some {| input_tokens := Some 5; output_tokens := Some 7;
               cache_read_input_tokens := None;
               cache_creation_input_tokens := None |};
     modelUsage :=
       Some [ ("opus", {| inputTokens := Some 10; outputTokens := None;
                          cacheReadInputTokens := None;
                          cacheCreationInputTokens := None |});
              ("haiku", {| inputTokens := Some 1; outputTokens := Some 2;
                           cacheReadInputTokens := None;
                           cacheCreationInputTokens := None |}) ] |}.

Definition cli_success : ClaudeCliRunResult :=
  {| payloads := Some [ {| text := Some "hello" |} ];
     meta := {| durationMs := 50; meta_sessionId := Some "c-9";
                meta_model := Some "opus"; costUsd := Some (123, -4);
                usage := Some {| input := 16; output := 9; cacheRead := 0;
                                 cacheWrite := 0 |};
                meta_aborted := Some false |} |}.

Definition old_sessions : SessionMap := {[ "s1" := "c-8" ]}.
Definition new_sessions : SessionMap := {[ "s1" := "c-9" ]}.

(** A workspace whose session map already sends ["s1"] to ["c-8"]. *)
Definition workspace_resumed : FileSystem :=
  {[ "/ws" := Directory;
     sessions_file := File true true (JSON_stringify old_sessions) ]}.



(** What is delivered in a plain run, up to the close of the child. *)
Definition delivered : list ProcEvent := [OnStdoutData cli_output].

Definition plain_run : RunState :=
  runClaudeCliAgent params None workspace 100
    (delivered ++ [OnClose (Some 0) 150]).

(** The timer fires, and the child cannot be signalled. *)
Definition kill_fails : list ProcEvent :=
  [OnTimeout; OnError "kill EPERM"; OnClose None 150].

Definition credentials_file : string := "/home/user/.claude/.credentials.json".
Definition oauth_json : string := "/home/user/.clawdbot/credentials/oauth.json".

Definition claude_oauth : ClaudeAiOauth :=
  {| accessToken := "at-1"; refreshToken_ := "rt-1"; expiresAt := 2000000 |}.

Definition credentials_text : string :=
  json_text "{'claudeAiOauth': {'accessToken': 'at-1', 'refreshToken': 'rt-1', 'expiresAt': 2000000}}".

Definition home : FileSystem :=
  {[ credentials_file := File true true credentials_text;
     oauth_json :=
       File true true
         (json_text "{'openai': {'access': 'x'}, 'anthropic': {'access': 'old'}}") ]}.

Definition token_body : string :=
  json_text "{'access_token': 'at-2', 'refresh_token': 'rt-2', 'expires_in': 3600}".

(** At 1500000 the token, which expires at 2000000, is within ten minutes
    (600000 ms) of its expiry; the endpoint answers at 1500200. *)
Definition world_expiring : World :=
  {| disk := home;
     Date_now := fun n => match n with O => 1500000 | _ => 1500200 end;
     token_endpoint := fun _ => Response true token_body |}.

(** At 1000000 it is not. *)
Definition world_fresh : World :=
  {| disk := home;
     Date_now := fun _ => 1000000;
     token_endpoint := fun _ => NetworkError |}.

(** A workspace whose session map file may be read but not written. *)
Definition workspace_read_only : FileSystem :=
  {[ "/ws" := Directory;
     sessions_file := File true false (json_text "{'other': 'c-0'}") ]}.


(** Two result lines, with a line that is not JSON before each and after. *)
Definition first_line : string :=
  json_text "{'type':'result','result':'draft','session_id':'c-1'}".
Definition last_line : string :=
  json_text "{'type':'result','result':'final'}".
Definition two_results : string :=
  "thinking" +:+ Json.line_break +:+ first_line +:+ Json.line_break
  +:+ "still thinking" +:+ Json.line_break +:+ last_line +:+ Json.line_break
  +:+ "bye" +:+ Json.line_break.


Definition final_result : ClaudeJsonResult :=
  {| type := Some "result"; subtype := None; is_error := None;
     duration_ms := None; result := Some "final"; session_id := None;
     total_cost_usd := None; usage_block := None; modelUsage := None |}.


(** Every option present, and empty. *)
Definition bare_params : ClaudeCliRunnerParams :=
  {| sessionId := "s1"; sessionKey := None; workspaceDir := "/ws";
     prompt := "hi"; model := Some ""; timeoutMs := 1000; runId := "run-1";
     abortSignal := None; systemPrompt := Some "";
     appendSystemPrompt := Some ""; continueSession := Some false;
     resumeSessionId := Some ""; allowedTools := Some [];
     disallowedTools := Some []; skipPermissions := Some false |}.


(** The token is expiring and the endpoint refuses to refresh it. *)
Definition world_refused : World :=
  {| disk := home;
     Date_now := fun n => match n with O => 1500000 | _ => 1500200 end;
     token_endpoint := fun _ => Response false "invalid_grant" |}.

(** Nobody has logged in with the CLI. *)
Definition world_logged_out : World :=
  {| disk := ∅;
     Date_now := fun _ => 1000000;
     token_endpoint := fun _ => NetworkError |}.

(** The store as an earlier run left it. *)
Definition other_provider : ClawdbotOAuth :=
  [("openai", JObj [("access", JStr "x")])].
Definition earlier : Credentials :=
  {| access := "at-0"; refresh := "rt-0"; expires := 900000 |}.

Definition world_synced : World :=
  {| disk := {[ credentials_file := File true true credentials_text;
                oauth_json :=
                  File true true (oauth_file other_provider earlier) ]};
     Date_now := fun _ => 1000000;
     token_endpoint := fun _ => NetworkError |}.

End Samples.

(** ** Properties of the runner *)

Module RunnerProofs.
Import JsString ClaudeCliRunner RunnerSpec.

Section WithPlatform.
Context `{Platform} `{JsonParse SessionMap} `{JsonStringify SessionMap}
        `{JsonParse ClaudeJsonResult}.

Implicit Types (params : ClaudeCliRunnerParams) (st : RunState)
  (ev : ProcEvent) (pre events : list ProcEvent).

(** One delivery while the child runs. *)
Lemma reached_step params started ws st ev :
  terminal ev = false ->
  reached st (handle params started ws st ev) [ev].
Proof.
  intros Hev.
  destruct ev; try discriminate Hev; simpl;
    [ destruct (abort_listener st) eqn:El
    | destruct (timer_armed st) eqn:Et | | ];
    split; simpl; rewrite ?El, ?Et, ?andb_true_r, ?andb_false_r, ?orb_false_r,
                    ?orb_true_r; try reflexivity;
    first [ by (exists 1%nat) | by (exists 0%nat; rewrite app_nil_r) ].
Qed.

Lemma reached_trans st0 st1 st2 pre ev :
  reached st0 st1 pre -> reached st1 st2 [ev] -> reached st0 st2 (pre ++ [ev]).
Proof.
  intros [Hp Hd Hm Ho He Ht Hl Ha [n Hk]] [Hp' Hd' Hm' Ho' He' Ht' Hl' Ha' [k Hk']].
  unfold timeout_elapsed in *. simpl in Ht', Hl', Ha', Ho', He'.
  split; unfold timeout_elapsed; rewrite ?fold_left_app, ?existsb_app; simpl.
  - congruence.
  - congruence.
  - congruence.
  - by rewrite Ho', Ho.
  - by rewrite He', He.
  - rewrite Ht', Ht. by destruct (timer_armed st0), (existsb is_timeout pre), (is_timeout ev).
  - rewrite Hl', Hl. by destruct (abort_listener st0), (existsb is_abort pre), (is_abort ev).
  - rewrite Ha', Ha, Hl, Ht.
    by destruct (aborted st0), (abort_listener st0), (timer_armed st0),
      (existsb is_abort pre), (existsb is_timeout pre), (is_abort ev),
      (is_timeout ev).
  - exists (n + k)%nat. by rewrite Hk', Hk, repeat_app, app_assoc.
Qed.

Lemma reached_running params started ws st0 pre :
  running pre ->
  reached st0 (fold_left (handle params started ws) pre st0) pre.
Proof.
  induction pre as [|ev pre IH] using rev_ind; intros Hrun.
  - split; simpl; rewrite ?andb_true_r, ?andb_false_r, ?orb_false_r; auto.
    exists 0%nat. simpl. by rewrite app_nil_r.
  - apply Forall_app in Hrun as [Hpre Hev].
    apply Forall_inv in Hev.
    rewrite fold_left_app; simpl.
    eapply reached_trans; [by apply IH|by apply reached_step].
Qed.

Lemma run_before_close params bin fs fs1 started pre :
  mkdir fs (resolveUserPath (workspaceDir params)) = Some fs1 ->
  running pre ->
  before_close params bin fs1 pre (runClaudeCliAgent params bin fs started pre).
Proof.
  intros Hmk Hrun. unfold runClaudeCliAgent. rewrite Hmk.
  match goal with
  | |- before_close _ _ _ _ (fold_left ?f _ ?s0) =>
      destruct (reached_running params started
                  (resolveUserPath (workspaceDir params)) s0 pre Hrun)
        as [Hp Hd Hm Ho He _ _ Ha [n Hk]]
  end.
  unfold spawned in *.
  split; rewrite ?Hp, ?Hd, ?Hm, ?Ho, ?He, ?Ha; clear Hp Hd Hm Ho He Ha;
    unfold abort_fired, stdout_of, stderr_of in *;
    destruct (abortSignal params) as [[]|]; simpl in *;
    rewrite ?orb_false_r, ?andb_false_r; try reflexivity.
  - exists (S n). by rewrite Hk.
  - exists n. by rewrite Hk.
  - exists n. by rewrite Hk.
Qed.

Lemma run_snoc params bin fs fs1 started pre ev :
  mkdir fs (resolveUserPath (workspaceDir params)) = Some fs1 ->
  runClaudeCliAgent params bin fs started (pre ++ [ev])
  = handle params started (resolveUserPath (workspaceDir params))
      (runClaudeCliAgent params bin fs started pre) ev.
Proof.
  intros Hmk. unfold runClaudeCliAgent. rewrite Hmk.
  by rewrite fold_left_app.
Qed.

(** A settled promise stays as it is. *)
Lemma handle_settled params started ws st ev o :
  promise st = Some o -> promise (handle params started ws st ev) = Some o.
Proof.
  intros Hs. destruct ev; simpl; unfold on_close, settle; simpl;
    repeat (rewrite ?Hs; simpl;
            match goal with
            | |- context [match ?x with _ => _ end] => destruct x eqn:?; simpl
            | |- context [if ?x then _ else _] => destruct x eqn:?; simpl
            end); rewrite ?Hs; auto.
Qed.

Lemma fold_settled params started ws events st o :
  promise st = Some o ->
  promise (fold_left (handle params started ws) events st) = Some o.
Proof.
  revert st. induction events as [|ev events IH]; intros st Hs; simpl; auto.
  apply IH. by apply handle_settled.
Qed.


Lemma run_app params bin fs fs1 started pre post :
  mkdir fs (resolveUserPath (workspaceDir params)) = Some fs1 ->
  runClaudeCliAgent params bin fs started (pre ++ post)
  = fold_left (handle params started (resolveUserPath (workspaceDir params)))
      post (runClaudeCliAgent params bin fs started pre).
Proof.
  intros Hmk. unfold runClaudeCliAgent. rewrite Hmk. apply fold_left_app.
Qed.

(** C1, as amended: when the abort signal has fired or the timer has elapsed
    while the child runs, and the child emits no ["error"] before it closes,
    the promise resolves, whatever the exit code and the captured output,
    with [aborted: true] and the single payload
    ["[Claude CLI timed out or aborted]"]; nothing is written. *)
Theorem aborted_run_resolves params bin fs fs1 started pre code now post :
  mkdir fs (resolveUserPath (workspaceDir params)) = Some fs1 ->
  running pre ->
  abort_fired params pre = true \/ timeout_elapsed pre = true ->
  promise (runClaudeCliAgent params bin fs started
             (pre ++ OnClose code now :: post))
  = Some (Resolved (aborted_result (now - started)))
  /\ ClaudeCliRunner.disk
       (runClaudeCliAgent params bin fs started (pre ++ [OnClose code now]))
     = fs1.
Proof.
  intros Hmk Hrun Hab.
  destruct (run_before_close params bin fs fs1 started pre Hmk Hrun)
    as [Hp Hd _ _ _ Ha _].
  assert (Hab' : aborted (runClaudeCliAgent params bin fs started pre) = true).
  { rewrite Ha. destruct Hab as [-> | ->]; by rewrite ?orb_true_r. }
  change (pre ++ OnClose code now :: post)
    with (pre ++ [OnClose code now] ++ post).
  rewrite app_assoc, (run_app _ _ _ fs1), (run_snoc _ _ _ fs1) by done.
  simpl. unfold on_close. simpl. rewrite Hab'. unfold settle. simpl.
  rewrite Hp. simpl. split; [|done].
  by apply fold_settled.
Qed.





(** What a run that resolved without being aborted went through. *)
Lemma success_inv params bin fs fs1 started pre code now res :
  mkdir fs (resolveUserPath (workspaceDir params)) = Some fs1 ->
  running pre ->
  let ws := resolveUserPath (workspaceDir params) in
  let before := runClaudeCliAgent params bin fs started pre in
  let final :=
    runClaudeCliAgent params bin fs started (pre ++ [OnClose code now]) in
  promise final = Some (Resolved res) ->
  meta_aborted (meta res) = Some false ->
  exists r,
    code = Some 0
    /\ parse_output (stdout_of pre) = Some r
    /\ res = success_result params (now - started) r
    /\ match truthy (session_id r) with
       | Some claude_session =>
           let map := <[sessionId params := claude_session]>
                        (loadSessionMap fs1 ws) in
           saveSessionMap fs1 ws map = Some (ClaudeCliRunner.disk final)
           /\ actions final
              = actions before
                ++ [WriteFile (session_map_path ws) (JSON_stringify map)]
       | None =>
           ClaudeCliRunner.disk final = fs1 /\ actions final = actions before
       end.
Proof.
  intros Hmk Hrun ws before final.
  destruct (run_before_close params bin fs fs1 started pre Hmk Hrun)
    as [Hp Hd Hm Ho _ Ha _].
  subst final. rewrite (run_snoc _ _ _ fs1) by done. fold before ws in Hp, Hd, Hm, Ho, Ha |- *.
  simpl. unfold on_close. simpl.
  destruct (aborted before); unfold settle; simpl; rewrite ?Hp; simpl.
  { intros [= <-]. discriminate. }
  destruct code as [[| |]|]; simpl; rewrite ?Hp; try discriminate.
  rewrite Ho.
  destruct (parse_output (stdout_of pre)) as [r|]; simpl; rewrite ?Hp;
    [|discriminate].
  destruct (truthy (session_id r)) as [claude_session|] eqn:Hs; simpl;
    rewrite ?Hp, ?Hd, ?Hm.
  - destruct (saveSessionMap fs1 ws _) as [disk'|] eqn:Hsave; simpl;
      rewrite ?Hp; [|discriminate].
    intros [= <-] _. exists r. rewrite Hs. by repeat split.
  - intros [= <-] _. exists r. rewrite Hs. by repeat split.
Qed.



Lemma fold_add_model (ms : list (string * ModelUsage)) (t : Usage) :
  fold_left add_model (map snd ms) t
  = {| input := input t + sum_over inputTokens ms;
       output := output t + sum_over outputTokens ms;
       cacheRead := cacheRead t + sum_over cacheReadInputTokens ms;
       cacheWrite := cacheWrite t + sum_over cacheCreationInputTokens ms |}.
Proof.
  revert t. induction ms as [|m ms IH]; intros t; simpl.
  - destruct t; simpl. f_equal; lia.
  - rewrite IH. unfold add_model; simpl. f_equal; lia.
Qed.

Lemma total_usage_sum (r : ClaudeJsonResult) :
  total_usage r
  = {| input := usage_field (usage_block r) input_tokens
                + sum_over inputTokens (model_entries r);
       output := usage_field (usage_block r) output_tokens
                 + sum_over outputTokens (model_entries r);
       cacheRead := usage_field (usage_block r) cache_read_input_tokens
                    + sum_over cacheReadInputTokens (model_entries r);
       cacheWrite := usage_field (usage_block r) cache_creation_input_tokens
                     + sum_over cacheCreationInputTokens (model_entries r) |}.
Proof.
  unfold total_usage, model_entries.
  destruct (modelUsage r) as [[|m ms]|]; simpl default.
  - simpl. f_equal; lia.
  - by rewrite fold_add_model.
  - simpl. f_equal; lia.
Qed.

(** C10: in a run that resolved without being aborted, each usage total is
    the field of the [usage] block of the parsed result (0 when absent) plus
    the sum of the per-model field over the entries of [modelUsage], and
    [meta.model] is the first key of [modelUsage] when there is one,
    otherwise [params.model], otherwise ["unknown"]. *)
Theorem usage_totals params bin fs fs1 started pre code now res :
  mkdir fs (resolveUserPath (workspaceDir params)) = Some fs1 ->
  running pre ->
  promise (runClaudeCliAgent params bin fs started (pre ++ [OnClose code now]))
    = Some (Resolved res) ->
  meta_aborted (meta res) = Some false ->
  exists r,
    parse_output (stdout_of pre) = Some r
    /\ usage (meta res)
       = Some {| input := usage_field (usage_block r) input_tokens
                          + sum_over inputTokens (model_entries r);
                 output := usage_field (usage_block r) output_tokens
                           + sum_over outputTokens (model_entries r);
                 cacheRead :=
                   usage_field (usage_block r) cache_read_input_tokens
                   + sum_over cacheReadInputTokens (model_entries r);
                 cacheWrite :=
                   usage_field (usage_block r) cache_creation_input_tokens
                   + sum_over cacheCreationInputTokens (model_entries r) |}
    /\ meta_model (meta res)
       = Some match model_entries r with
              | (first_key, _) :: _ => first_key
              | [] => match model params with
                      | Some m => m
                      | None => "unknown"
                      end
              end.
Proof.
  intros Hmk Hrun Hres Hok.
  destruct (success_inv params bin fs fs1 started pre code now res Hmk Hrun Hres Hok)
    as (r & _ & Hparse & -> & _).
  exists r. split; [done|]. simpl. rewrite total_usage_sum. split; [done|].
  unfold primary_model, model_entries.
  by destruct (modelUsage r) as [[|[name m] ms]|], (model params).
Qed.


Lemma spawn_count_app (a b : list Action) :
  spawn_count (a ++ b) = (spawn_count a + spawn_count b)%nat.
Proof. unfold spawn_count. by rewrite filter_app, length_app. Qed.

(** No handler starts a process: it only appends kills and writes. *)
Lemma handle_actions params started ws st ev :
  exists extra,
    actions (handle params started ws st ev) = actions st ++ extra
    /\ spawn_count extra = 0%nat.
Proof.
  destruct ev; simpl; unfold on_close, settle; simpl;
    repeat match goal with
           | |- context [match ?x with _ => _ end] => destruct x eqn:?; simpl
           | |- context [if ?x then _ else _] => destruct x eqn:?; simpl
           end;
    first [ by (exists []; rewrite app_nil_r)
          | by (eexists [_]; split; [reflexivity|]) ].
Qed.

Lemma fold_actions params started ws events st :
  exists extra,
    actions (fold_left (handle params started ws) events st)
    = actions st ++ extra
    /\ spawn_count extra = 0%nat.
Proof.
  revert st. induction events as [|ev events IH]; intros st; simpl.
  - exists []. by rewrite app_nil_r.
  - destruct (IH (handle params started ws st ev)) as (e2 & -> & Hs2).
    destruct (handle_actions params started ws st ev) as (e1 & -> & Hs1).
    exists (e1 ++ e2). rewrite <- app_assoc. split; [done|].
    rewrite spawn_count_app. lia.
Qed.

Lemma spawned_actions params bin args ws map fs :
  exists n,
    actions (spawned params bin args ws map fs)
    = Spawn bin args ws :: repeat Kill n.
Proof.
  unfold spawned. destruct (abortSignal params) as [[]|]; simpl;
    [by exists 1%nat | by exists 0%nat | by exists 0%nat].
Qed.




Lemma run_head params bin fs fs1 started events :
  mkdir fs (resolveUserPath (workspaceDir params)) = Some fs1 ->
  let ws := resolveUserPath (workspaceDir params) in
  head (actions (runClaudeCliAgent params bin fs started events))
  = Some (Spawn (claude_bin bin)
            (buildClaudeArgs (runParams (loadSessionMap fs1 ws) params)) ws).
Proof.
  intros Hmk ws. unfold runClaudeCliAgent. rewrite Hmk. fold ws.
  match goal with
  | |- context [fold_left ?f events ?s0] =>
      destruct (fold_actions params started ws events s0) as (extra & -> & _)
  end.
  match goal with
  | |- context [spawned ?p ?b ?a ?w ?m ?f] =>
      destruct (spawned_actions p b a w m f) as [n ->]
  end.
  done.
Qed.



Lemma buildClaudeArgs_segments p :
  buildClaudeArgs p = leading_flags p ++ session_flags p ++ trailing_flags p.
Proof.
  unfold buildClaudeArgs, leading_flags, trailing_flags, session_flags,
    flag_with, tools_flag.
  destruct (truthy (model p)), (truthy (systemPrompt p)),
    (truthy (appendSystemPrompt p)), (truthy (resumeSessionId p)),
    (is_true (continueSession p)), (some_tools (allowedTools p)),
    (some_tools (disallowedTools p)), (is_true (skipPermissions p));
    simpl; rewrite <- ?app_assoc; reflexivity.
Qed.


(** Membership in a list that is written out. ([naive_solver] clears
    hypotheses by name, some of them already gone.) *)
#[local] Set Warnings "-clear-no-such-hyp".








End WithPlatform.
End RunnerProofs.

(** ** Properties of the sync script *)

Module SyncProofs.
Import SyncClaudeOAuth SyncSpec FsSpec.

Lemma get_replace_eq k v ms :
  is_Some (Json.get k ms) -> Json.get k (Json.replace k v ms) = Some v.
Proof.
  induction ms as [|[k' v'] ms IH]; simpl; intros [x Hx]; [done|].
  destruct (String.eqb k k') eqn:E; simpl.
  - by rewrite String.eqb_refl.
  - rewrite E. apply IH. eauto.
Qed.


Lemma get_snoc k k' v ms :
  Json.get k' (ms ++ [(k, v)])
  = match Json.get k' ms with
    | Some x => Some x
    | None => if String.eqb k' k then Some v else None
    end.
Proof.
  induction ms as [|[k0 v0] ms IH]; simpl; [done|].
  by destruct (String.eqb k' k0).
Qed.


Lemma set_anthropic v ms :
  Json.set "anthropic" v ms
  = match Json.get "anthropic" ms with
    | Some _ => Json.replace "anthropic" v ms
    | None => ms ++ [("anthropic", v)]
    end.
Proof. reflexivity. Qed.

Lemma synced_anthropic existing finalCreds :
  Json.get "anthropic" (synced existing finalCreds)
  = Some (credentials_json finalCreds).
Proof.
  unfold synced. rewrite set_anthropic.
  destruct (Json.get "anthropic" existing) eqn:E.
  - apply get_replace_eq. eauto.
  - by rewrite get_snoc, E.
Qed.



Section WithPlatform.
Context `{Platform} `{JsonParse ClaudeCredentials} `{JsonParse TokenResponse}
        `{JsonParse ClawdbotOAuth} `{JsonStringify ClawdbotOAuth}.

Lemma read_existing_store fs : read_existing fs = existing_store fs.
Proof.
  unfold read_existing, existing_store, existsSync, readFile.
  by destruct (fs !! CLAWDBOT_OAUTH_PATH) as [[[] w c|]|].
Qed.

Lemma write_store_ok w sent finalCreds :
  exit_code (write_store w sent finalCreds) = 0 ->
  content (disk_after (write_store w sent finalCreds)) CLAWDBOT_OAUTH_PATH
  = Some (oauth_file (existing_store (disk w)) finalCreds)
  /\ requests (write_store w sent finalCreds) = sent.
Proof.
  unfold write_store.
  set (dir := path_dirname CLAWDBOT_OAUTH_PATH).
  destruct (existsSync (disk w) dir) eqn:Hdir.
  - rewrite read_existing_store.
    destruct (writeFile (disk w) _ _) as [fs'|] eqn:Hw; simpl; [|done].
    intros _. split; [|done].
    unfold writeFile in Hw. unfold content.
    destruct (disk w !! CLAWDBOT_OAUTH_PATH) as [[r [] c|]|];
      simplify_eq; by rewrite lookup_insert_eq.
  - unfold mkdir, existsSync in *.
    destruct (disk w !! dir) eqn:Hd; [done|].
    rewrite read_existing_store.
    destruct (decide (dir = CLAWDBOT_OAUTH_PATH)) as [E|E].
    + unfold writeFile. rewrite <- E, lookup_insert_eq. done.
    + assert (Hsame : existing_store (<[dir:=Directory]> (disk w))
                      = existing_store (disk w)).
      { unfold existing_store, readFile. by rewrite lookup_insert_ne. }
      rewrite Hsame.
      destruct (writeFile _ _ _) as [fs'|] eqn:Hw; simpl; [|done].
      intros _. split; [|done].
      unfold writeFile in Hw. unfold content.
      destruct (_ !! CLAWDBOT_OAUTH_PATH) as [[r [] c|]|];
        simplify_eq; by rewrite lookup_insert_eq.
Qed.


(** What an execution that ends with exit code 0 has done. *)
Lemma main_ok w :
  exit_code (main w) = 0 ->
  exists content creds o,
    readFile (disk w) CLAUDE_CREDS_PATH = Some content
    /\ JSON_parse content = Some creds
    /\ claudeAiOauth creds = Some o
    /\ exists sent finalCreds,
         main w = write_store w sent finalCreds
         /\ (if isExpired w o
             then refreshToken w (Date_now w 1) (refreshToken_ o) = Some finalCreds
             else finalCreds = {| access := accessToken o;
                                  refresh := refreshToken_ o;
                                  expires := expiresAt o |}).
Proof.
  unfold main.
  destruct (existsSync (disk w) CLAUDE_CREDS_PATH); simpl; [|done].
  destruct (readFile (disk w) CLAUDE_CREDS_PATH) as [content|] eqn:Hread;
    simpl; [|done].
  destruct (JSON_parse content) as [creds|] eqn:Hparse; simpl; [|done].
  destruct (claudeAiOauth creds) as [o|] eqn:Ho; simpl; [|done].
  destruct (isExpired w o) eqn:Hexp.
  - destruct (refreshToken w _ _) as [finalCreds|] eqn:Href; simpl; [|done].
    destruct (toISOString_ok (expires finalCreds)); simpl; [|done].
    intros _. exists content, creds, o. repeat split; try done.
    do 2 eexists. rewrite Hexp. split; done.
  - destruct (toISOString_ok (expiresAt o)); simpl; [|done].
    intros _. exists content, creds, o. repeat split; try done.
    do 2 eexists. rewrite Hexp. split; done.
Qed.



End WithPlatform.
End SyncProofs.

(** ** How the two programs write their files *)

Module PersistenceProofs.
Import ClaudeCliRunner SyncClaudeOAuth FsSpec SyncSpec.








Section WithPlatform.
Context `{Platform} `{JsonParse SessionMap} `{JsonStringify SessionMap}
        `{JsonParse ClawdbotOAuth} `{JsonStringify ClawdbotOAuth}.


End WithPlatform.
End PersistenceProofs.

(** ** Further properties of the two programs *)

Module FsProofs.
Import FsSpec.

Lemma preserved_refl (target : string) (fs : FileSystem) :
  preserved_except target fs fs.
Proof. by split. Qed.

Lemma preserved_trans (target : string) (fs1 fs2 fs3 : FileSystem) :
  preserved_except target fs1 fs2 ->
  preserved_except target fs2 fs3 ->
  preserved_except target fs1 fs3.
Proof. intros [Hk1 Hn1] [Hk2 Hn2]. split; eauto. Qed.

(** [mkdir] changes nothing that is there, and makes a directory. *)
Lemma mkdir_preserved (target p : string) (fs fs' : FileSystem) :
  mkdir fs p = Some fs' -> preserved_except target fs fs'.
Proof.
  unfold mkdir. intros Hmk.
  destruct (fs !! p) as [[]|] eqn:E; simplify_eq; [apply preserved_refl|].
  split.
  - intros q n _ Hq. rewrite lookup_insert_ne; [done|congruence].
  - intros q r w c _.
    destruct (decide (p = q)) as [<-|Hne].
    + by rewrite lookup_insert_eq.
    + by rewrite lookup_insert_ne.
Qed.

(** [writeFile] changes the file it is given, and nothing else. *)
Lemma writeFile_preserved (p data : string) (fs fs' : FileSystem) :
  writeFile fs p data = Some fs' -> preserved_except p fs fs'.
Proof.
  unfold writeFile. intros Hw.
  destruct (fs !! p) as [[r [] c|]|] eqn:E; simplify_eq;
    (split; [intros q n Hq | intros q r' w' c' Hq];
     by rewrite lookup_insert_ne).
Qed.

End FsProofs.

Module RunnerBehaviour.
Import JsString ClaudeCliRunner RunnerSpec FsSpec RunnerProofs FsProofs.


Lemma probe_settled (events : list ProcEvent) (st : ProbeState) (b : bool) :
  available st = Some b ->
  fold_left probe_handle events st = st.
Proof.
  intros Hb. induction events as [|ev events IH]; simpl; [done|].
  replace (probe_handle st ev) with st; [done|].
  destruct ev; simpl; unfold probe_resolve; by rewrite ?Hb.
Qed.

Section WithPlatform.
Context `{Platform} `{JsonParse SessionMap} `{JsonStringify SessionMap}
        `{JsonParse ClaudeJsonResult}.

Implicit Types (params : ClaudeCliRunnerParams) (st : RunState)
  (ev : ProcEvent) (pre post events : list ProcEvent).


(** X2: an ["error"] event delivered before the child closes rejects the
    promise with that error, also when the run was aborted or timed out
    before, and whatever is delivered afterwards; it clears the timer and
    writes nothing. *)
Theorem error_event_rejects params bin fs fs1 started pre err post :
  mkdir fs (resolveUserPath (workspaceDir params)) = Some fs1 ->
  running pre ->
  let final :=
    runClaudeCliAgent params bin fs started (pre ++ [OnError err]) in
  promise (runClaudeCliAgent params bin fs started (pre ++ OnError err :: post))
  = Some (Rejected (SpawnError err))
  /\ timer_armed final = false
  /\ ClaudeCliRunner.disk final = fs1.
Proof.
  intros Hmk Hrun final.
  destruct (run_before_close params bin fs fs1 started pre Hmk Hrun)
    as [Hp Hd _ _ _ _ _].
  change (pre ++ OnError err :: post) with (pre ++ [OnError err] ++ post).
  rewrite app_assoc, (run_app _ _ _ fs1) by done. fold final.
  subst final. rewrite (run_snoc _ _ _ fs1) by done.
  simpl. unfold settle. simpl. rewrite Hp. simpl.
  split; [by apply fold_settled|done].
Qed.

(** One delivery changes the file system at the session map file only. *)
Lemma handle_preserved params started ws st ev :
  preserved_except (session_map_path ws)
    (ClaudeCliRunner.disk st)
    (ClaudeCliRunner.disk (handle params started ws st ev)).
Proof.
  destruct ev; simpl; unfold on_close, settle; simpl;
    repeat match goal with
           | |- context [match saveSessionMap ?a ?b ?c with _ => _ end] =>
               destruct (saveSessionMap a b c) eqn:Hsave; simpl
           | |- context [match ?x with _ => _ end] => destruct x eqn:?; simpl
           | |- context [if ?x then _ else _] => destruct x eqn:?; simpl
           end; try apply preserved_refl;
    by apply writeFile_preserved in Hsave.
Qed.

Lemma fold_preserved params started ws events st :
  preserved_except (session_map_path ws)
    (ClaudeCliRunner.disk st)
    (ClaudeCliRunner.disk (fold_left (handle params started ws) events st)).
Proof.
  revert st. induction events as [|ev events IH]; intros st; simpl.
  - apply preserved_refl.
  - eapply preserved_trans; [apply handle_preserved|apply IH].
Qed.

(** X3: whatever is delivered, a call leaves every file and directory that
    was there as it was, and makes no new file, except for the session map
    file of the workspace; besides that file it only makes directories. *)
Theorem run_keeps_what_is_there params bin fs started events :
  preserved_except (session_map_path (resolveUserPath (workspaceDir params)))
    fs (ClaudeCliRunner.disk (runClaudeCliAgent params bin fs started events)).
Proof.
  unfold runClaudeCliAgent.
  destruct (mkdir fs _) as [fs1|] eqn:Hmk; simpl; [|apply preserved_refl].
  eapply preserved_trans; [by eapply mkdir_preserved|].
  match goal with
  | |- context [fold_left ?f events ?s0] =>
      replace fs1 with (ClaudeCliRunner.disk s0) at 1;
        [apply fold_preserved|]
  end.
  unfold spawned. by destruct (abortSignal params) as [[]|].
Qed.

Lemma kill_count_app (a b : list Action) :
  kill_count (a ++ b) = (kill_count a + kill_count b)%nat.
Proof. unfold kill_count. by rewrite filter_app, length_app. Qed.

(** A delivery kills only by using up the abort listener or the timer. *)
Lemma handle_kills params started ws st ev :
  (kill_count (actions (handle params started ws st ev))
   + Nat.b2n (abort_listener (handle params started ws st ev))
   + Nat.b2n (timer_armed (handle params started ws st ev))
   <= kill_count (actions st)
      + Nat.b2n (abort_listener st) + Nat.b2n (timer_armed st))%nat.
Proof.
  destruct ev; simpl; unfold on_close, settle; simpl;
    repeat match goal with
           | |- context [match ?x with _ => _ end] => destruct x eqn:?; simpl
           | |- context [if ?x then _ else _] => destruct x eqn:?; simpl
           end;
    rewrite ?kill_count_app; simpl;
    repeat match goal with
           | |- context [Nat.b2n ?b] => destruct b; simpl
           end; try discriminate; unfold kill_count; simpl; lia.
Qed.

Lemma fold_kills params started ws events st :
  (kill_count (actions (fold_left (handle params started ws) events st))
   <= kill_count (actions st)
      + Nat.b2n (abort_listener st) + Nat.b2n (timer_armed st))%nat.
Proof.
  revert st. induction events as [|ev events IH]; intros st; simpl; [lia|].
  etrans; [apply IH|]. 
  pose proof (handle_kills params started ws st ev). lia.
Qed.

Lemma running_kills params started ws pre st :
  running pre ->
  kill_count (actions (fold_left (handle params started ws) pre st))
  = (kill_count (actions st)
     + Nat.b2n (abort_listener st && existsb is_abort pre)
     + Nat.b2n (timer_armed st && timeout_elapsed pre))%nat.
Proof.
  unfold timeout_elapsed. revert st.
  induction pre as [|ev pre IH]; intros st Hrun; simpl.
  - rewrite !andb_false_r. simpl. lia.
  - apply Forall_cons in Hrun as [Hev Hpre].
    rewrite IH by done.
    destruct ev; try discriminate Hev; simpl;
      try (destruct (abort_listener st) eqn:El; simpl);
      try (destruct (timer_armed st) eqn:Et; simpl);
      rewrite ?kill_count_app, ?El, ?Et; simpl;
      rewrite ?andb_false_r; simpl;
      repeat match goal with
             | |- context [Nat.b2n ?b] => destruct b; simpl
             end; unfold kill_count; simpl; lia.
Qed.

(** X4: [proc.kill] is called once when the abort signal fires and once when
    the timer elapses, and at no other moment: while the child runs the
    number of calls is exactly the number of those two that have happened,
    and over a whole call, whatever is delivered, it never exceeds two. *)
Theorem kills_match_abort_and_timeout params bin fs started :
  (forall events,
     (kill_count (actions (runClaudeCliAgent params bin fs started events))
      <= 2)%nat)
  /\ (forall fs1 pre,
        mkdir fs (resolveUserPath (workspaceDir params)) = Some fs1 ->
        running pre ->
        kill_count (actions (runClaudeCliAgent params bin fs started pre))
        = (Nat.b2n (abort_fired params pre)
           + Nat.b2n (timeout_elapsed pre))%nat).
Proof.
  split.
  - intros events. unfold runClaudeCliAgent.
    destruct (mkdir fs _) as [fs1|]; [|unfold kill_count; simpl; lia].
    etrans; [apply fold_kills|].
    unfold spawned. destruct (abortSignal params) as [[]|]; simpl;
      unfold kill_count; simpl; lia.
  - intros fs1 pre Hmk Hrun. unfold runClaudeCliAgent. rewrite Hmk.
    rewrite running_kills by done.
    unfold spawned, abort_fired.
    destruct (abortSignal params) as [[]|]; simpl; unfold kill_count; simpl;
      lia.
Qed.

(** X5: neither the abort signal nor the timer settles the promise: they
    signal the child, and the promise stays pending until a ["close"] or an
    ["error"] is delivered, however long that takes. *)
Theorem only_an_exit_settles params bin fs fs1 started pre :
  mkdir fs (resolveUserPath (workspaceDir params)) = Some fs1 ->
  running pre ->
  promise (runClaudeCliAgent params bin fs started pre) = None.
Proof.
  intros Hmk Hrun.
  by destruct (run_before_close params bin fs fs1 started pre Hmk Hrun).
Qed.

(** X6: when the session map cannot be written (the file is read-only, or a
    directory stands in its place), the ["close"] handler of a run that
    produced a result with a session id ends at the rejected write: the
    promise is neither resolved nor rejected, and stays so as long as no
    other ["close"] or ["error"] is delivered; the file system is as it
    was. *)
Theorem failed_save_leaves_the_promise_pending
    params bin fs fs1 started pre now r claude_session post :
  mkdir fs (resolveUserPath (workspaceDir params)) = Some fs1 ->
  running pre ->
  abort_fired params pre = false ->
  timeout_elapsed pre = false ->
  parse_output (stdout_of pre) = Some r ->
  truthy (session_id r) = Some claude_session ->
  let ws := resolveUserPath (workspaceDir params) in
  saveSessionMap fs1 ws
    (<[sessionId params := claude_session]> (loadSessionMap fs1 ws)) = None ->
  running post ->
  let final :=
    runClaudeCliAgent params bin fs started
      (pre ++ OnClose (Some 0) now :: post) in
  promise final = None /\ ClaudeCliRunner.disk final = fs1.
Proof.
  intros Hmk Hrun Hab Hto Hparse Hsid ws Hsave Hpost final.
  destruct (run_before_close params bin fs fs1 started pre Hmk Hrun)
    as [Hp Hd Hm Ho _ Ha _].
  rewrite Hab, Hto in Ha. simpl in Ha.
  subst final.
  change (pre ++ OnClose (Some 0) now :: post)
    with (pre ++ [OnClose (Some 0) now] ++ post).
  rewrite app_assoc, (run_app _ _ _ fs1) by done.
  match goal with
  | |- context [fold_left ?f post ?s0] =>
      destruct (reached_running params started ws s0 post Hpost)
        as [Hp' Hd' _ _ _ _ _ _ _]
  end.
  fold ws. rewrite Hp', Hd'.
  rewrite (run_snoc _ _ _ fs1) by done.
  simpl. unfold on_close. simpl. rewrite Ha, Ho, Hparse, Hsid. simpl.
  rewrite Hd, Hm. fold ws. rewrite Hsave. simpl. done.
Qed.

Lemma scan_lines_skip (skipped rest : list string) :
  Forall (fun line => result_line line = None) skipped ->
  scan_lines (skipped ++ rest) = scan_lines rest.
Proof.
  induction 1 as [|line skipped Hline _ IH]; simpl; [done|].
  unfold result_line in Hline.
  destruct (JSON_parse line) as [parsed|]; [|done].
  by destruct (decide (type parsed = Some "result")).
Qed.

(** X7: when several lines of the output are result lines the last of them
    is the structured result: the lines before it are not looked at, be
    they result lines or not JSON at all, and the lines after it only have
    to be no result lines. *)
Theorem last_result_line_wins (out : string) before line after r :
  split_newline (trim out) = before ++ line :: after ->
  result_line line = Some r ->
  Forall (fun l => result_line l = None) after ->
  parse_output out = Some r.
Proof.
  intros Hlines Hline Hafter. unfold parse_output. rewrite Hlines.
  rewrite rev_app_distr. simpl. rewrite <- app_assoc.
  rewrite scan_lines_skip by (by apply Forall_rev).
  simpl. unfold result_line in Hline.
  destruct (JSON_parse line) as [parsed|]; [|done].
  destruct (decide (type parsed = Some "result")); by simplify_eq.
Qed.



(** X9: the arguments always begin with [-p --output-format json] and end
    with the prompt, passed as one argument as it is; every option lies
    between the two. *)
Theorem arguments_frame_the_prompt (p : ClaudeCliRunnerParams) :
  exists options,
    buildClaudeArgs p
    = ["-p"; "--output-format"; "json"] ++ options ++ [prompt p].
Proof.
  rewrite buildClaudeArgs_segments.
  unfold leading_flags, trailing_flags.
  exists ((flag_with "--model" (truthy (model p))
           ++ flag_with "--system-prompt" (truthy (systemPrompt p))
           ++ flag_with "--append-system-prompt"
                (truthy (appendSystemPrompt p)))
          ++ session_flags p
          ++ tools_flag "--allowed-tools" (some_tools (allowedTools p))
          ++ tools_flag "--disallowed-tools" (some_tools (disallowedTools p))
          ++ (if is_true (skipPermissions p)
              then ["--dangerously-skip-permissions"] else [])).
  by rewrite <- !app_assoc.
Qed.

(** X10: an option that is absent, an empty string or an empty list of
    tools, or a switch that is not [true], leaves no argument: with none of
    the options set the arguments are the three fixed ones and the
    prompt. *)
Theorem absent_options_leave_no_argument (p : ClaudeCliRunnerParams) :
  truthy (model p) = None ->
  truthy (systemPrompt p) = None ->
  truthy (appendSystemPrompt p) = None ->
  truthy (resumeSessionId p) = None ->
  continueSession p <> Some true ->
  some_tools (allowedTools p) = [] ->
  some_tools (disallowedTools p) = [] ->
  skipPermissions p <> Some true ->
  buildClaudeArgs p = ["-p"; "--output-format"; "json"; prompt p].
Proof.
  intros Hm Hs Ha Hr Hc Hal Hdis Hskip.
  unfold buildClaudeArgs. rewrite Hm, Hs, Ha, Hr, Hal, Hdis.
  assert (Hc' : is_true (continueSession p) = false).
  { destruct (continueSession p) as [[]|]; done. }
  assert (Hskip' : is_true (skipPermissions p) = false).
  { destruct (skipPermissions p) as [[]|]; done. }
  by rewrite Hc', Hskip'.
Qed.

Lemma load_saved (fs fs' : FileSystem) (ws : string) (m : SessionMap) :
  saveSessionMap fs ws m = Some fs' ->
  (forall w c, fs !! session_map_path ws <> Some (File false w c)) ->
  JSON_parse (JSON_stringify m) = Some m ->
  loadSessionMap fs' ws = m.
Proof.
  unfold saveSessionMap, loadSessionMap, writeFile, readFile.
  intros Hsave Hread Hcodec.
  destruct (fs !! session_map_path ws) as [[[] [] c|]|] eqn:E;
    simplify_eq; rewrite ?lookup_insert_eq, ?Hcodec; try done.
  by destruct (Hread true c).
Qed.

Lemma saved_is_readable (fs fs' : FileSystem) (ws : string) (m : SessionMap) :
  saveSessionMap fs ws m = Some fs' ->
  (forall w c, fs !! session_map_path ws <> Some (File false w c)) ->
  forall w c, fs' !! session_map_path ws <> Some (File false w c).
Proof.
  intros Hsave Hread w c Hfile. unfold saveSessionMap, writeFile in Hsave.
  destruct (fs !! session_map_path ws) as [[[] [] c0|]|] eqn:E;
    simplify_eq; rewrite lookup_insert_eq in Hfile; try done.
  by destruct (Hread true c0).
Qed.

(** X11: what [saveSessionMap] wrote, [loadSessionMap] reads back: after a
    save that did not reject, on a file the process may read, a map that
    survives [JSON.stringify] and [JSON.parse] is loaded as it was saved,
    and a second save replaces the first. A file that may be written but
    not read is loaded as the empty map. *)
Theorem saved_session_map_is_loaded
    (fs fs1 fs2 : FileSystem) (ws : string) (m1 m2 : SessionMap) :
  saveSessionMap fs ws m1 = Some fs1 ->
  saveSessionMap fs1 ws m2 = Some fs2 ->
  JSON_parse (JSON_stringify m1) = Some m1 ->
  JSON_parse (JSON_stringify m2) = Some m2 ->
  ((forall w c, fs !! session_map_path ws <> Some (File false w c)) ->
   loadSessionMap fs1 ws = m1 /\ loadSessionMap fs2 ws = m2)
  /\ ((exists c, fs !! session_map_path ws = Some (File false true c)) ->
      loadSessionMap fs1 ws = ∅ /\ loadSessionMap fs2 ws = ∅).
Proof.
  intros Hs1 Hs2 Hc1 Hc2. split.
  - intros Hread. split; [by apply (load_saved fs)|].
    apply (load_saved fs1); [done| |done].
    by apply (saved_is_readable fs _ ws m1).
  - intros [c Hfile].
    unfold saveSessionMap, loadSessionMap, writeFile, readFile in *.
    rewrite Hfile in Hs1. simplify_eq.
    rewrite lookup_insert_eq in Hs2 |- *. simplify_eq.
    by rewrite lookup_insert_eq.
Qed.





(** X14: [isClaudeCliAvailable] starts the binary once, with the single
    argument [--version], and answers by the first ["close"] or ["error"]
    it is delivered: [true] exactly when that is a ["close"] with exit code
    0, [false] for any other exit code, a death by signal or an ["error"];
    until then the promise is pending, and it never rejects. The binary is
    the one [runClaudeCliAgent] spawns. *)
Theorem probe_answers_by_the_first_exit
    (CLAUDE_CLI_PATH : option string) (cwd : string) events :
  let probe := isClaudeCliAvailable CLAUDE_CLI_PATH cwd events in
  available probe
  = match first_terminal events with
    | Some (OnClose (Some 0) _) => Some true
    | Some _ => Some false
    | None => None
    end
  /\ probe_actions probe
     = [Spawn (claude_bin CLAUDE_CLI_PATH) ["--version"] cwd]
  /\ (forall params fs fs1 started deliveries,
        mkdir fs (resolveUserPath (workspaceDir params)) = Some fs1 ->
        exists args ws,
          head (actions (runClaudeCliAgent params CLAUDE_CLI_PATH fs started
                           deliveries))
          = Some (Spawn (claude_bin CLAUDE_CLI_PATH) args ws)).
Proof.
  unfold isClaudeCliAvailable. cbv zeta.
  set (st0 := {| available := None; probe_actions := _ |}).
  split; [|split].
  - unfold first_terminal.
    induction events as [|ev events IH]; simpl; [done|].
    rewrite filter_cons.
    destruct ev; simpl; try exact IH;
      unfold probe_resolve; simpl.
    + destruct code as [[| |]|]; by erewrite probe_settled.
    + by erewrite probe_settled.
  - assert (Hinv : forall s : ProbeState,
              probe_actions (fold_left probe_handle events s)
              = probe_actions s).
    { induction events as [|ev events IH]; intros s; simpl; [done|].
      rewrite IH. destruct ev; simpl; unfold probe_resolve;
        by destruct (available s). }
    by rewrite Hinv.
  - intros params fs fs1 started deliveries Hmk.
    do 2 eexists. by apply (run_head params CLAUDE_CLI_PATH fs fs1).
Qed.

(** A ["close"] or an ["error"] clears the timer and leaves the abort
    listener where it is. *)
Lemma exit_timer_and_listener params started ws st ev :
  terminal ev = true ->
  timer_armed (handle params started ws st ev) = false
  /\ abort_listener (handle params started ws st ev) = abort_listener st
  /\ exists writes,
       actions (handle params started ws st ev) = actions st ++ writes.
Proof.
  intros Hev.
  destruct ev; try discriminate Hev; simpl; unfold on_close, settle; simpl;
    repeat match goal with
           | |- context [match ?x with _ => _ end] => destruct x eqn:?; simpl
           | |- context [if ?x then _ else _] => destruct x eqn:?; simpl
           end;
    (split; [done|split; [done|]]);
    first [ by (exists []; rewrite app_nil_r) | by eexists [_] ].
Qed.

(** X19: when the child closes or fails, the handler clears the timer but
    does not remove the abort listener: a timeout that would come later
    does nothing, while an abort signal that fires after the exit still
    calls [proc.kill] on the child that is gone. *)
Theorem exit_clears_the_timer_not_the_listener
    params bin fs fs1 started pre ev :
  mkdir fs (resolveUserPath (workspaceDir params)) = Some fs1 ->
  running pre ->
  terminal ev = true ->
  let exited := runClaudeCliAgent params bin fs started (pre ++ [ev]) in
  actions (runClaudeCliAgent params bin fs started ((pre ++ [ev]) ++ [OnTimeout]))
  = actions exited
  /\ (abortSignal params = Some false ->
      existsb is_abort pre = false ->
      actions (runClaudeCliAgent params bin fs started
                 ((pre ++ [ev]) ++ [OnAbort]))
      = actions exited ++ [Kill]).
Proof.
  intros Hmk Hrun Hev exited.
  set (ws := resolveUserPath (workspaceDir params)).
  assert (Hexit : exited
                  = handle params started ws
                      (runClaudeCliAgent params bin fs started pre) ev)
    by (by apply (run_snoc _ _ _ fs1)).
  destruct (exit_timer_and_listener params started ws
              (runClaudeCliAgent params bin fs started pre) ev Hev)
    as (Htimer & Hlistener & _).
  rewrite <- Hexit in Htimer, Hlistener.
  rewrite !(run_snoc _ _ _ fs1 _ (pre ++ [ev])) by done. fold exited ws. simpl.
  split; [by rewrite Htimer|].
  intros Hsignal Hnone.
  assert (Hl : abort_listener exited = true).
  { rewrite Hlistener. unfold runClaudeCliAgent. rewrite Hmk.
    match goal with
    | |- context [fold_left (handle _ _ ?w) pre ?s0] =>
        destruct (reached_running params started w s0 pre Hrun)
          as [_ _ _ _ _ _ Hl _ _]; rewrite Hl
    end.
    unfold spawned. rewrite Hsignal, Hnone. done. }
  by rewrite Hl.
Qed.

End WithPlatform.
End RunnerBehaviour.

Module SyncBehaviour.
Import SyncClaudeOAuth SyncSpec FsSpec SyncProofs FsProofs.

Lemma replace_replace k v1 v2 ms :
  Json.replace k v2 (Json.replace k v1 ms) = Json.replace k v2 ms.
Proof.
  induction ms as [|[k' v'] ms IH]; simpl; [done|].
  destruct (String.eqb k k') eqn:E; simpl.
  - by rewrite String.eqb_refl.
  - by rewrite E, IH.
Qed.

Lemma replace_snoc k v1 v2 ms :
  Json.get k ms = None ->
  Json.replace k v2 (ms ++ [(k, v1)]) = ms ++ [(k, v2)].
Proof.
  induction ms as [|[k' v'] ms IH]; simpl.
  - by rewrite String.eqb_refl.
  - destruct (String.eqb k k'); [done|]. intros Hnone. by rewrite IH.
Qed.

Lemma synced_synced existing c1 c2 :
  synced (synced existing c1) c2 = synced existing c2.
Proof.
  unfold synced at 1. rewrite set_anthropic, synced_anthropic.
  unfold synced. rewrite !set_anthropic.
  destruct (Json.get "anthropic" existing) eqn:E.
  - apply replace_replace.
  - by apply replace_snoc.
Qed.

Lemma replace_keys k v ms :
  is_Some (Json.get k ms) -> map fst (Json.replace k v ms) = map fst ms.
Proof.
  induction ms as [|[k' v'] ms IH]; simpl; [done|].
  destruct (String.eqb k k') eqn:E; simpl.
  - apply String.eqb_eq in E as <-. done.
  - intros Hk. by rewrite IH.
Qed.

Section WithPlatform.
Context `{Platform} `{JsonParse ClaudeCredentials} `{JsonParse TokenResponse}
        `{JsonParse ClawdbotOAuth} `{JsonStringify ClawdbotOAuth}.

Lemma write_store_preserved w sent finalCreds :
  preserved_except CLAWDBOT_OAUTH_PATH (disk w)
    (disk_after (write_store w sent finalCreds)).
Proof.
  unfold write_store.
  set (dir := path_dirname CLAWDBOT_OAUTH_PATH).
  destruct (if existsSync (disk w) dir then _ else _) as [fs|] eqn:Hdir;
    simpl; [|apply preserved_refl].
  assert (Hmade : preserved_except CLAWDBOT_OAUTH_PATH (disk w) fs).
  { destruct (existsSync (disk w) dir).
    - injection Hdir as <-. apply preserved_refl.
    - by eapply mkdir_preserved. }
  destruct (writeFile fs _ _) as [fs'|] eqn:Hw; simpl; [|apply preserved_refl].
  eapply preserved_trans; [exact Hmade|by eapply writeFile_preserved].
Qed.

(** X15: the script leaves every file and directory that was there as it
    was, the Claude credentials it reads among them, and makes no new file,
    except for [oauth.json]; besides that file it only makes directories. *)
Theorem sync_keeps_what_is_there w :
  preserved_except CLAWDBOT_OAUTH_PATH (disk w) (disk_after (main w)).
Proof.
  unfold main.
  destruct (existsSync (disk w) CLAUDE_CREDS_PATH); simpl;
    [|apply preserved_refl].
  destruct (readFile (disk w) CLAUDE_CREDS_PATH) as [text|];
    [|apply preserved_refl].
  destruct (JSON_parse text) as [creds|]; [|apply preserved_refl].
  destruct (claudeAiOauth creds) as [o|]; [|apply preserved_refl].
  destruct (isExpired w o).
  - destruct (refreshToken w _ _) as [finalCreds|]; [|apply preserved_refl].
    destruct (toISOString_ok _); [|apply preserved_refl].
    apply write_store_preserved.
  - destruct (toISOString_ok _); [|apply preserved_refl].
    apply write_store_preserved.
Qed.

(** X16: without usable Claude credentials (the file is missing or cannot
    be read, is not JSON, or has no [claudeAiOauth]) the script ends with
    exit code 1 before it does anything: no request is sent and the file
    system is as it was. *)
Theorem unusable_credentials_abort w :
  readFile (disk w) CLAUDE_CREDS_PATH = None
  \/ (exists text,
        readFile (disk w) CLAUDE_CREDS_PATH = Some text
        /\ (JSON_parse (A := ClaudeCredentials) text = None
            \/ exists creds,
                 JSON_parse text = Some creds
                 /\ claudeAiOauth creds = None)) ->
  exit_code (main w) = 1
  /\ disk_after (main w) = disk w
  /\ requests (main w) = [].
Proof.
  intros Hcreds. unfold main.
  destruct (existsSync (disk w) CLAUDE_CREDS_PATH); simpl; [|done].
  destruct Hcreds as [-> | (text & -> & [-> | (creds & -> & ->)])]; done.
Qed.

(** X17: when the token is expiring and the refresh fails (the request
    throws, the answer is not ok, or its body is not JSON), the script ends
    with exit code 1 after that one request: it does not try again, it does
    not fall back on the token it read, also when that token has not yet
    expired, and it leaves the file system as it was. *)
Theorem failed_refresh_aborts w text creds o :
  readFile (disk w) CLAUDE_CREDS_PATH = Some text ->
  JSON_parse text = Some creds ->
  claudeAiOauth creds = Some o ->
  Date_now w 0 > expiresAt o - 600000 ->
  token_endpoint w (refresh_request (refreshToken_ o)) = NetworkError
  \/ (exists body,
        token_endpoint w (refresh_request (refreshToken_ o))
        = Response false body)
  \/ (exists body,
        token_endpoint w (refresh_request (refreshToken_ o))
        = Response true body
        /\ JSON_parse (A := TokenResponse) body = None) ->
  exit_code (main w) = 1
  /\ disk_after (main w) = disk w
  /\ requests (main w) = [refresh_request (refreshToken_ o)].
Proof.
  intros Hread Hparse Ho Hexp Hfail.
  assert (Hexists : existsSync (disk w) CLAUDE_CREDS_PATH = true).
  { unfold readFile, existsSync in *.
    by destruct (disk w !! CLAUDE_CREDS_PATH). }
  assert (Hexp' : isExpired w o = true).
  { unfold isExpired, REFRESH_THRESHOLD_MS. rewrite Z.gtb_gt. simpl. lia. }
  unfold main. rewrite Hexists, Hread, Hparse, Ho, Hexp'. simpl.
  unfold refreshToken.
  destruct Hfail as [-> | [[body ->] | (body & -> & ->)]]; done.
Qed.

(** X18: a later run replaces the entry, it does not add one: when
    [oauth.json] holds what a run wrote from the store [existing], and that
    text parses back to the object it was made from, a run that ends with
    exit code 0 writes what a single run from [existing] would have written
    with its own credentials, with the same keys in the same order. *)
Theorem later_sync_replaces_the_entry w (existing : ClawdbotOAuth) first :
  readFile (disk w) CLAWDBOT_OAUTH_PATH = Some (oauth_file existing first) ->
  JSON_parse (oauth_file existing first) = Some (synced existing first) ->
  exit_code (main w) = 0 ->
  exists finalCreds,
    content (disk_after (main w)) CLAWDBOT_OAUTH_PATH
    = Some (oauth_file existing finalCreds)
    /\ map fst (synced existing finalCreds) = map fst (synced existing first)
    /\ Json.get "anthropic" (synced existing finalCreds)
       = Some (credentials_json finalCreds).
Proof.
  intros Hread Hcodec Hok.
  destruct (main_ok w Hok)
    as (_ & _ & _ & _ & _ & _ & sent & finalCreds & Hmain & _).
  rewrite Hmain in Hok |- *.
  destruct (write_store_ok w sent finalCreds Hok) as [Hc _].
  exists finalCreds. rewrite Hc.
  unfold existing_store. rewrite Hread, Hcodec. simpl.
  unfold oauth_file. rewrite synced_synced.
  split; [done|]. split; [|apply synced_anthropic].
  rewrite <- (synced_synced existing first finalCreds).
  unfold synced at 1. rewrite set_anthropic, synced_anthropic.
  apply replace_keys. rewrite synced_anthropic. eauto.
Qed.

End WithPlatform.
End SyncBehaviour.

(** ** The programs on the sample inputs *)

Module Examples.
Import JsString Json ClaudeCliRunner SyncClaudeOAuth Codec Samples.
Import RunnerSpec FsSpec SyncSpec.

Example plain_run_resolves : promise plain_run = Some (Resolved cli_success).
Proof. vm_compute. reflexivity. Qed.

Example plain_run_actions :
  actions plain_run
  = [ Spawn "/opt/homebrew/bin/claude"
        ["-p"; "--output-format"; "json"; "--continue"; "hi"] "/ws";
      WriteFile sessions_file
        (JSON_stringify (<["s1" := "c-9"]> ({[ "other" := "c-0" ]} : SessionMap))) ].
Proof. vm_compute. reflexivity. Qed.

Example cli_output_parses : parse_output cli_output = Some cli_result.
Proof. vm_compute. reflexivity. Qed.

Example resumed_run_arguments :
  head (actions (runClaudeCliAgent params None workspace_resumed 100 []))
  = Some (Spawn "/opt/homebrew/bin/claude"
            ["-p"; "--output-format"; "json"; "--resume"; "c-8"; "hi"] "/ws").
Proof. vm_compute. reflexivity. Qed.

Example sync_refreshes :
  exit_code (main world_expiring) = 0
  /\ requests (main world_expiring) = [refresh_request "rt-1"]
  /\ option_map (fun text => JSON_parse (A := ClawdbotOAuth) text)
       (content (disk_after (main world_expiring)) oauth_json)
     = Some (Some [ ("openai", JObj [("access", JStr "x")]);
                    ("anthropic",
                     JObj [ ("access", JStr "at-2"); ("refresh", JStr "rt-2");
                            ("expires", JNum 4800200 0) ]) ]).
Proof. vm_compute. repeat split; reflexivity. Qed.

Example sync_relays :
  exit_code (main world_fresh) = 0
  /\ requests (main world_fresh) = []
  /\ option_map (fun text => JSON_parse (A := ClawdbotOAuth) text)
       (content (disk_after (main world_fresh)) oauth_json)
     = Some (Some [ ("openai", JObj [("access", JStr "x")]);
                    ("anthropic",
                     JObj [ ("access", JStr "at-1"); ("refresh", JStr "rt-1");
                            ("expires", JNum 2000000 0) ]) ]).
Proof. vm_compute. repeat split; reflexivity. Qed.

(** C1, at a sample run: the caller aborts while the child is printing. *)
Lemma aborted_run_resolves_witness :
  promise (runClaudeCliAgent params None workspace 100
             ([OnStdoutData cli_output; OnAbort] ++ OnClose None 130 :: []))
  = Some (Resolved (aborted_result (130 - 100)))
  /\ ClaudeCliRunner.disk
       (runClaudeCliAgent params None workspace 100
          ([OnStdoutData cli_output; OnAbort] ++ [OnClose None 130]))
     = workspace.
Proof.
  apply (RunnerProofs.aborted_run_resolves params None workspace workspace 100
           [OnStdoutData cli_output; OnAbort] None 130 []).
  - vm_compute. reflexivity.
  - repeat constructor.
  - left. reflexivity.
Defined.

(** C1 as stated fails: the timer elapses before the child closes, the kill
    fails, and the promise rejects. *)
Lemma timeout_then_error_rejects :
  timeout_elapsed [OnTimeout; OnError "kill EPERM"] = true
  /\ promise (runClaudeCliAgent params None workspace 100 kill_fails)
     = Some (Rejected (SpawnError "kill EPERM")).
Proof. split; vm_compute; reflexivity. Qed.










Example corrupt_session_map_run :
  head (actions (runClaudeCliAgent params None workspace_corrupt 100 delivered))
  = Some (Spawn "/opt/homebrew/bin/claude"
            ["-p"; "--output-format"; "json"; "--continue"; "hi"] "/ws").
Proof. vm_compute. reflexivity. Qed.

(** C10, at the plain run. *)
Lemma usage_totals_witness :
  exists r,
    parse_output (stdout_of delivered) = Some r
    /\ usage (meta cli_success)
       = Some {| input := usage_field (usage_block r) input_tokens
                          + sum_over inputTokens (model_entries r);
                 output := usage_field (usage_block r) output_tokens
                           + sum_over outputTokens (model_entries r);
                 cacheRead :=
                   usage_field (usage_block r) cache_read_input_tokens
                   + sum_over cacheReadInputTokens (model_entries r);
                 cacheWrite :=
                   usage_field (usage_block r) cache_creation_input_tokens
                   + sum_over cacheCreationInputTokens (model_entries r) |}
    /\ meta_model (meta cli_success)
       = Some match model_entries r with
              | (first_key, _) :: _ => first_key
              | [] => match model params with
                      | Some m => m
                      | None => "unknown"
                      end
              end.
Proof.
  apply (RunnerProofs.usage_totals params None workspace workspace 100
           delivered (Some 0) 150 cli_success).
  - vm_compute. reflexivity.
  - repeat constructor.
  - vm_compute. reflexivity.
  - reflexivity.
Defined.

End Examples.

(** ** The further properties on sample inputs *)

Module MoreExamples.
Import JsString Json ClaudeCliRunner SyncClaudeOAuth Codec Samples.
Import RunnerSpec FsSpec SyncSpec.


(** X2, at a run that timed out and whose child could not be signalled. *)
Lemma error_event_rejects_witness :
  let final :=
    runClaudeCliAgent params None workspace 100
      ([OnTimeout] ++ [OnError "kill EPERM"]) in
  promise (runClaudeCliAgent params None workspace 100
             ([OnTimeout] ++ OnError "kill EPERM" :: [OnClose None 150]))
  = Some (Rejected (SpawnError "kill EPERM"))
  /\ timer_armed final = false
  /\ ClaudeCliRunner.disk final = workspace.
Proof.
  apply (RunnerBehaviour.error_event_rejects params None workspace workspace 100
           [OnTimeout] "kill EPERM" [OnClose None 150]).
  - vm_compute. reflexivity.
  - repeat constructor.
Defined.

(** X5, at a child that goes on after the abort and the timeout. *)
Lemma only_an_exit_settles_witness :
  promise (runClaudeCliAgent params None workspace 100
             [OnStdoutData cli_output; OnAbort; OnTimeout; OnStderrData "late"])
  = None.
Proof.
  apply (RunnerBehaviour.only_an_exit_settles params None workspace workspace
           100 [OnStdoutData cli_output; OnAbort; OnTimeout;
                OnStderrData "late"]).
  - vm_compute. reflexivity.
  - repeat constructor.
Defined.

(** X6, at a session map file that may not be written. *)
Lemma failed_save_leaves_the_promise_pending_witness :
  let final :=
    runClaudeCliAgent params None workspace_read_only 100
      (delivered ++ OnClose (Some 0) 150 :: [OnAbort; OnTimeout]) in
  promise final = None /\ ClaudeCliRunner.disk final = workspace_read_only.
Proof.
  apply (RunnerBehaviour.failed_save_leaves_the_promise_pending params None
           workspace_read_only workspace_read_only 100 delivered 150
           cli_result "c-9" [OnAbort; OnTimeout]).
  - vm_compute. reflexivity.
  - repeat constructor.
  - reflexivity.
  - reflexivity.
  - vm_compute. reflexivity.
  - reflexivity.
  - vm_compute. reflexivity.
  - repeat constructor.
Defined.

(** X7, at an output with two result lines. *)
Lemma last_result_line_wins_witness :
  parse_output two_results = Some final_result.
Proof.
  apply (RunnerBehaviour.last_result_line_wins two_results
           ["thinking"; first_line; "still thinking"] last_line ["bye"]
           final_result).
  - vm_compute. reflexivity.
  - vm_compute. reflexivity.
  - repeat constructor.
Defined.


(** X10, at parameters whose options are all empty. *)
Lemma absent_options_leave_no_argument_witness :
  buildClaudeArgs bare_params
  = ["-p"; "--output-format"; "json"; prompt bare_params].
Proof.
  apply (RunnerBehaviour.absent_options_leave_no_argument bare_params);
    first [reflexivity | discriminate].
Defined.

(** X11, at two saves into the sample workspace. *)
Lemma saved_session_map_is_loaded_witness :
  ((forall w c,
      workspace !! session_map_path "/ws" <> Some (File false w c)) ->
   loadSessionMap
     (<[sessions_file := File true true (JSON_stringify old_sessions)]>
        workspace) "/ws" = old_sessions
   /\ loadSessionMap
        (<[sessions_file := File true true (JSON_stringify new_sessions)]>
           (<[sessions_file := File true true (JSON_stringify old_sessions)]>
              workspace)) "/ws" = new_sessions)
  /\ ((exists c,
         workspace !! session_map_path "/ws" = Some (File false true c)) ->
      loadSessionMap
        (<[sessions_file := File true true (JSON_stringify old_sessions)]>
           workspace) "/ws" = ∅
      /\ loadSessionMap
           (<[sessions_file := File true true (JSON_stringify new_sessions)]>
              (<[sessions_file := File true true (JSON_stringify old_sessions)]>
                 workspace)) "/ws" = ∅).
Proof.
  apply (RunnerBehaviour.saved_session_map_is_loaded workspace
           (<[sessions_file := File true true (JSON_stringify old_sessions)]>
              workspace)
           (<[sessions_file := File true true (JSON_stringify new_sessions)]>
              (<[sessions_file := File true true (JSON_stringify old_sessions)]>
                 workspace))
           "/ws" old_sessions new_sessions).
  - vm_compute. reflexivity.
  - vm_compute. reflexivity.
  - vm_compute. reflexivity.
  - vm_compute. reflexivity.
Defined.



(** X16, at a home directory without Claude credentials. *)
Lemma unusable_credentials_abort_witness :
  exit_code (main world_logged_out) = 1
  /\ disk_after (main world_logged_out) = SyncClaudeOAuth.disk world_logged_out
  /\ requests (main world_logged_out) = [].
Proof.
  apply (SyncBehaviour.unusable_credentials_abort world_logged_out).
  left. vm_compute. reflexivity.
Defined.

(** X17, at a token that still has some minutes and an endpoint that
    refuses. *)
Lemma failed_refresh_aborts_witness :
  exit_code (main world_refused) = 1
  /\ disk_after (main world_refused) = SyncClaudeOAuth.disk world_refused
  /\ requests (main world_refused)
     = [refresh_request (refreshToken_ claude_oauth)].
Proof.
  apply (SyncBehaviour.failed_refresh_aborts world_refused credentials_text
           {| claudeAiOauth := Some claude_oauth |} claude_oauth).
  - vm_compute. reflexivity.
  - vm_compute. reflexivity.
  - reflexivity.
  - vm_compute. reflexivity.
  - right. left. exists "invalid_grant". reflexivity.
Defined.

(** X18, at a store an earlier run wrote. *)
Lemma later_sync_replaces_the_entry_witness :
  exists finalCreds,
    content (disk_after (main world_synced)) CLAWDBOT_OAUTH_PATH
    = Some (oauth_file other_provider finalCreds)
    /\ map fst (synced other_provider finalCreds)
       = map fst (synced other_provider earlier)
    /\ Json.get "anthropic" (synced other_provider finalCreds)
       = Some (credentials_json finalCreds).
Proof.
  apply (SyncBehaviour.later_sync_replaces_the_entry world_synced other_provider
           earlier).
  - vm_compute. reflexivity.
  - vm_compute. reflexivity.
  - vm_compute. reflexivity.
Defined.

(** X19, at the plain run. *)
Lemma exit_clears_the_timer_not_the_listener_witness :
  let exited :=
    runClaudeCliAgent params None workspace 100
      (delivered ++ [OnClose (Some 0) 150]) in
  actions (runClaudeCliAgent params None workspace 100
             ((delivered ++ [OnClose (Some 0) 150]) ++ [OnTimeout]))
  = actions exited
  /\ (abortSignal params = Some false ->
      existsb is_abort delivered = false ->
      actions (runClaudeCliAgent params None workspace 100
                 ((delivered ++ [OnClose (Some 0) 150]) ++ [OnAbort]))
      = actions exited ++ [Kill]).
Proof.
  apply (RunnerBehaviour.exit_clears_the_timer_not_the_listener params None
           workspace workspace 100 delivered (OnClose (Some 0) 150)).
  - vm_compute. reflexivity.
  - repeat constructor.
  - reflexivity.
Defined.

End MoreExamples.
